(** * Experiment utilities of the Happy Customer Bank study

    A shallow embedding of [Happy_Customer_Bank/src/experiment_utils.py].

    Python objects that are mutated or shared (the estimators) live in a
    heap and are passed around by address.  Warnings and file writes are
    recorded in an event log.  Calls into scikit-learn, pandas, numpy, joblib
    and [os] are taken from a [library] record: the repository code decides
    when they are called and with what, the record decides what they answer. *)

From Stdlib Require Import ZArith.
From stdpp Require Import base strings pretty gmap list.

Open Scope Z_scope.

#[local] Set Warnings "-register-all".

(** ** Values *)

(** Scalars that appear as hyperparameter values and keyword arguments.
    [VObj c] is an object of class [c] held as an attribute (a sampler). *)
Inductive value :=
| VNone
| VBool (b : bool)
| VInt (z : Z)
| VStr (s : string)
| VObj (cls : string).

#[global] Instance value_eq_dec : EqDecision value.
Proof. solve_decision. Defined.

(** A double, kept opaque: its arithmetic is the library's. *)
Inductive float := F64 (bits : Z).

#[global] Instance float_eq_dec : EqDecision float.
Proof. solve_decision. Defined.

(** Python's [bool(v)] on scalars. *)
Definition truthy (v : value) : bool :=
  match v with
  | VNone => false
  | VBool b => b
  | VInt z => negb (Z.eqb z 0)
  | VStr s => negb (String.eqb s EmptyString)
  | VObj _ => true
  end.

(** [type(v).__name__] *)
Definition type_name (v : value) : string :=
  match v with
  | VNone => "NoneType"
  | VBool _ => "bool"
  | VInt _ => "int"
  | VStr _ => "str"
  | VObj c => c
  end.

(** [kwargs.get(key, None)] *)
Definition kwargs_get (kwargs : gmap string value) (key : string) : value :=
  default VNone (kwargs !! key).

(** ** Estimators, tables, pipelines *)

(** An estimator object: its class and its constructor parameters, which
    scikit-learn keeps as attributes of the same names; [learned] stands for
    whatever [fit] stores on the object. *)
Record estimator := Estimator {
  class_name : string;
  params : gmap string value;
  learned : list float
}.

(** [model.get_params()] *)
Definition get_params (o : estimator) : gmap string value := params o.

Inductive dtype := Number | Object | OtherDtype.

#[global] Instance dtype_eq_dec : EqDecision dtype.
Proof. solve_decision. Defined.

(** A [pd.DataFrame] of input data and a [pd.Series] of labels. *)
Record table := Table {
  columns : list (string * dtype);
  rows : list (list value)
}.

Abbreviation labels := (list value).

Inductive transformer :=
| SimpleImputer (strategy : string) (fill_value : Z)
| TargetEncoder (random_state : Z)
| OneHotEncoder (sparse_output : bool)
| UserTransformer (name : string)
| ColumnTransformer (parts : list (transformer * list string)).

Inductive step :=
| Transform (t : transformer)
| Model (o : estimator).

(** [make_pipeline(...)] names its steps itself, [Pipeline([...])] is given
    the names. *)
Inductive pipeline :=
| MakePipeline (steps : list step)
| NamedPipeline (steps : list (string * step)).

(** ** Result tables and returned objects *)

Inductive cell :=
| CStr (s : string)
| CNum (x : float).

(** A result record is a dict from column name to cell; a results DataFrame
    is the list of its rows. *)
Abbreviation record := (gmap string cell).
Abbreviation frame := (list record).

Inductive pyobj :=
| ONone
| OFrame (f : frame)
| OScores (d : gmap string (list float))
| OPipeline (p : pipeline)
| OTuple (items : list pyobj).

(** ** Errors *)

(** An exception raised inside an external library call. *)
Inductive lib_exn := LibExn (kind : string) (msg : string).

Inductive exn :=
| Propagated (e : lib_exn)          (* came out of a library call, untouched *)
| ValueError (msg : string)         (* [raise ValueError(...)] in repository code *)
| UnboundLocalError (name : string) (* a local read before any assignment *)
| IndexError                        (* a list subscript out of range *)
| AttributeError (name : string)    (* [getattr] / method lookup on an object lacking it *)
| TypeError (msg : string)          (* the interpreter could not bind the arguments of a call *)
| InvalidReference.                 (* an address outside the heap; no Python object is such *)

(** [constructed_by_repository e]: [e] was built by a [raise] statement of the
    repository. *)
Definition constructed_by_repository (e : exn) : bool :=
  match e with
  | ValueError _ => true
  | _ => false
  end.



(** ** The world: heap of estimators and event log *)

Abbreviation loc := nat.

Inductive event :=
| Warn (msg : string)                 (* [warnings.warn(msg)] was called *)
| ToCsv (path : value) (df : frame)   (* [df.to_csv(path, index=False)] wrote the file *)
| Dump (obj : pyobj) (path : value).  (* [joblib.dump(obj, path)] wrote the file *)

Record world := World {
  heap : list estimator;
  log : list event
}.

(** ** The monad of effectful Python code

    A computation runs in a world and ends in a world, with a value or an
    exception.  The world reached when an exception escapes is kept. *)
Definition M (A : Type) : Type := world → world * (exn + A).

Definition ret {A} (a : A) : M A := λ w, (w, inr a).

Definition raise {A} (e : exn) : M A := λ w, (w, inl e).

Definition bind {A B} (m : M A) (k : A → M B) : M B :=
  λ w, match m w with
       | (w1, inl e) => (w1, inl e)
       | (w1, inr a) => k a w1
       end.

Declare Scope py_scope.
Delimit Scope py_scope with py.
Notation "x <- c1 ;; c2" := (bind c1 (λ x, c2))
  (at level 100, c1 at next level, right associativity) : py_scope.
Notation "c1 ;;; c2" := (bind c1 (λ _, c2))
  (at level 100, right associativity) : py_scope.
Open Scope py_scope.

(** An error of a library call is propagated. *)
Definition lift {A} (r : lib_exn + A) : M A :=
  match r with
  | inl e => raise (Propagated e)
  | inr a => ret a
  end.

(** Dereference an object. *)
Definition read (l : loc) : M estimator :=
  λ w, match heap w !! l with
       | Some o => (w, inr o)
       | None => (w, inl InvalidReference)
       end.

(** Overwrite the object at [l] (in-place mutation). *)
Definition write (l : loc) (o : estimator) : M unit :=
  λ w, (World (<[l := o]> (heap w)) (log w), inr tt).

(** Allocate a new object. *)
Definition alloc (o : estimator) : M loc :=
  λ w, (World (heap w ++ [o]) (log w), inr (length (heap w))).

Definition emit (e : event) : M unit :=
  λ w, (World (heap w) (log w ++ [e]), inr tt).

(** A [for] loop that threads the locals it updates. *)
Fixpoint for_each {A B} (xs : list A) (acc : B) (body : B → A → M B) : M B :=
  match xs with
  | [] => ret acc
  | x :: rest => acc' <- body acc x ;; for_each rest acc' body
  end.

(** A list comprehension with an effectful element expression. *)
Fixpoint comprehension {A B} (f : A → M B) (xs : list A) : M (list B) :=
  match xs with
  | [] => ret []
  | x :: rest => y <- f x ;; ys <- comprehension f rest ;; ret (y :: ys)
  end.

(** ** The estimator contract of scikit-learn *)

(** [copy.deepcopy(model)]: a new object with the same content. *)
Definition deepcopy (model : loc) : M loc :=
  o <- read model ;; alloc o.

(** [model.set_params] with keyword arguments [kw]: every key must be a
    parameter of the estimator, else the library raises ValueError; the
    values are stored on the object itself, which is returned.  When it
    raises, the object is taken to be as it was: scikit-learn sets the keys
    one by one, but the only object of this program on which a later key can
    be refused is a copy that nothing refers to any more. *)
Definition set_params (model : loc) (kw : gmap string value) : M loc :=
  o <- read model ;;
  if bool_decide (dom kw ⊆ dom (get_params o)) then
    write model (Estimator (class_name o) (kw ∪ params o) (learned o)) ;;;
    ret model
  else
    raise (Propagated (LibExn "ValueError" "Invalid parameter for estimator")).

(** ** Module constants *)

Definition RANDOM_STATE : Z := 42.

Definition PARAMS_TO_SAVE : list string :=
  ["n_estimators"; "class_weight"; "min_samples_leaf"; "max_samples"; "max_features"].

Definition HANDLE_MISSINGS_MODELS : list string :=
  ["HistGradientBoostingClassifier"; "BaggingClassifier";
   "BalancedBagging_OverSampling"; "BalancedBagging_UnderSampling"].

(** ** set_model_params, create_models *)

Definition set_model_params (model : loc) (model_params : gmap string value) : M loc :=
  model_copy <- deepcopy model ;;
  set_params model_copy model_params ;;;
  ret model_copy.

(** An element of [model_params]: a dict, a list of dicts, or anything else. *)
Inductive params_elem :=
| PDict (d : gmap string value)
| PList (ds : list (gmap string value))
| POther (v : value).

(** The element expression of the comprehension at lines 78-81. *)
Definition set_defaults (model : loc) : M loc :=
  o <- read model ;;
  if bool_decide ("n_jobs" ∈ dom (get_params o)) then
    set_params model (<["random_state" := VInt RANDOM_STATE]> {["n_jobs" := VInt (-1)]})
  else
    set_params model {["random_state" := VInt RANDOM_STATE]}.

Definition invalid_format_msg : string :=
  "Invalid format in model_params list. Each element should be either a dictionary or a list of dictionaries.".

(** The body of the [for model, params in zip(models, model_params)] loop. *)
Definition extend_models (models : list loc) (model : loc) (p : params_elem) : M (list loc) :=
  match p with
  | PList ds =>
      for_each ds models
        (λ models param_dict, c <- set_model_params model param_dict ;; ret (models ++ [c]))
  | PDict d => c <- set_model_params model d ;; ret (models ++ [c])
  | POther _ => raise (ValueError invalid_format_msg)
  end.

(** [zip(models, model_params)] reads [models] through a list iterator, by
    position, while the loop body appends to that same list: the iterator
    sees the appended elements.  [i] is the iterator's position. *)
Fixpoint zip_loop (i : nat) (model_params : list params_elem) (models : list loc)
  : M (list loc) :=
  match model_params with
  | [] => ret models
  | p :: rest =>
      match models !! i with
      | None => ret models
      | Some model =>
          models' <- extend_models models model p ;;
          zip_loop (S i) rest models'
      end
  end.

Definition create_models (base_models : list loc) (model_params : option (list params_elem))
  : M (list loc) :=
  models <- comprehension set_defaults base_models ;;
  match model_params with
  | Some ((_ :: _) as mps) => zip_loop 0 mps models
  | _ => ret models
  end.

(** ** Strings and paths *)

(** [sep.join(parts)] *)
Fixpoint join (sep : string) (parts : list string) : string :=
  match parts with
  | [] => EmptyString
  | [p] => p
  | p :: rest => p +:+ sep +:+ join sep rest
  end.

(** [s.endswith(suffix)] *)
Definition endswith (s suffix : string) : bool :=
  let n := String.length s in
  let k := String.length suffix in
  (k <=? n)%nat && String.eqb (String.substring (n - k) k s) suffix.

(** [s.startswith(pre)] *)
Definition startswith (s pre : string) : bool :=
  String.eqb (String.substring 0 (String.length pre) s) pre.

(** [os.path.join(a, b)] on a POSIX system. *)
Definition os_path_join (a b : string) : string :=
  if startswith b "/" then b
  else if String.eqb a EmptyString || endswith a "/" then a +:+ b
  else a +:+ "/" +:+ b.

(** [str(v)], as an f-string formats a value. *)
Definition py_str (v : value) : string :=
  match v with
  | VNone => "None"
  | VBool true => "True"
  | VBool false => "False"
  | VInt z => pretty z
  | VStr s => s
  | VObj c => c +:+ "()"
  end.

(** ** The external libraries *)

Record cv_scheme := StratifiedKFold {
  n_splits : Z;
  shuffle : bool;
  cv_random_state : Z
}.

Definition CV_SCHEME : cv_scheme := StratifiedKFold 5 true RANDOM_STATE.

(** What [cross_validate] returns: one entry per fold. *)
Record cv_results := CvResults {
  test_score : list float;
  fit_time : list float;
  score_time : list float
}.

(** The attributes of a fitted [RandomizedSearchCV] that the code reads. *)
Record search_results := SearchResults {
  best_score_ : float;
  best_estimator_ : pipeline;
  mean_test_score : list float;
  rank_test_score : list Z;
  mean_fit_time : list float;
  mean_score_time : list float
}.

(** Every call that leaves the repository.  A call either answers or raises
    a [lib_exn]; [fit] also says what it left on the object it was called on. *)
Record library := Library {
  np_round : float → Z → float;
  np_mean : list float → float;
  np_add : list float → list float → list float;
  cross_validate : pipeline → table → labels → string → cv_scheme → Z → lib_exn + cv_results;
  randomized_search_cv :
    pipeline → gmap string (list value) → Z → cv_scheme → string → Z → table → labels
    → lib_exn + search_results;
  fit : estimator → table → labels → estimator * option lib_exn;
  predict_proba : estimator → table → lib_exn + list (list float);
  to_csv : frame → value → option lib_exn;
  joblib_dump : pyobj → value → option lib_exn;
  os_listdir : string → lib_exn + list string;
  read_csv : string → lib_exn + frame;
  select_columns : frame → list string → lib_exn + frame
}.

(** Python's [bool(obj)] on returned objects.  pandas refuses to give a
    DataFrame a truth value. *)
Definition truth_value (obj : pyobj) : lib_exn + bool :=
  match obj with
  | ONone => inr false
  | OFrame _ => inl (LibExn "ValueError" "The truth value of a DataFrame is ambiguous.")
  | OScores d => inr (negb (bool_decide (d = ∅)))
  | OPipeline (MakePipeline steps) => inr (negb (bool_decide (length steps = 0%nat)))
  | OPipeline (NamedPipeline steps) => inr (negb (bool_decide (length steps = 0%nat)))
  | OTuple items => inr (negb (bool_decide (length items = 0%nat)))
  end.

Definition truth (obj : pyobj) : M bool := lift (truth_value obj).

(** [isinstance(returned_values, tuple) and len(returned_values) == 2]: a pair
    is unpacked into the results and the additional results, anything else
    is the results, with [None] beside it. *)
Definition unpack (returned_values : pyobj) : pyobj * pyobj :=
  match returned_values with
  | OTuple [results; additional_results] => (results, additional_results)
  | _ => (returned_values, ONone)
  end.

(** [X.iloc[idx]] on a list of positions; pandas raises IndexError when a
    position is out of bounds. *)
Definition iloc {A} (xs : list A) (idx : list nat) : M (list A) :=
  match mapM (λ i, xs !! i) idx with
  | Some sel => ret sel
  | None => raise (Propagated (LibExn "IndexError" "positional indexers are out-of-bounds"))
  end.

(** [X.select_dtypes(kind).columns] *)
Definition select_dtypes (X : table) (kind : dtype) : list string :=
  (filter (λ c, c.2 = kind) (columns X)).*1.

Definition no_path_msg : string := "No path provided, the result data won't be saved.".

Section Experiments.

Context (L : library).

(** ** prepare_models_info, create_preprocessor *)

(** One iteration of the loop of [prepare_models_info]. *)
Definition model_info (params_to_save : list string) (model : loc) : M (string * string) :=
  o <- read model ;;
  model_name <-
    (if String.eqb (class_name o) "BalancedBaggingClassifier" then
       match params o !! "sampler" with
       | None => raise (AttributeError "sampler")
       | Some sampler =>
           if String.eqb (type_name sampler) "RandomUnderSampler"
           then ret "BalancedBagging_UnderSampling"
           else ret "BalancedBagging_OverSampling"
       end
     else ret (class_name o)) ;;
  let model_params :=
    join ", " (omap (λ param, (λ v, param +:+ ": " +:+ py_str v) <$> params o !! param)
                    params_to_save) in
  ret (model_name, model_params).

Definition prepare_models_info (models : list loc) (params_to_save : list string)
  : M (list string * list string) :=
  for_each models ([], [])
    (λ acc model,
       info <- model_info params_to_save model ;;
       ret (acc.1 ++ [info.1], acc.2 ++ [info.2])).

Definition create_preprocessor (X : table) : list string * list string * transformer :=
  let num_features := select_dtypes X Number in
  let cat_features := select_dtypes X Object in
  let general_preprocessor :=
    ColumnTransformer [(SimpleImputer "constant" (-1), num_features);
                       (TargetEncoder RANDOM_STATE, cat_features)] in
  (num_features, cat_features, general_preprocessor).

(** ** cv_scores, create_results_dataframe *)

Definition cv_scores (p : pipeline) (X : table) (y : labels)
    (model_name model_params : string) : M record :=
  cv <- lift (cross_validate L p X y "roc_auc" CV_SCHEME (-1)) ;;
  let roc_auc := np_round L (np_mean L (test_score cv)) 4 in
  let time := np_round L (np_mean L (np_add L (fit_time cv) (score_time cv))) 2 in
  ret (<["Model" := CStr model_name]>
       (<["Parameters" := CStr model_params]>
        (<["ROC_AUC" := CNum roc_auc]>
         {["Time[s]" := CNum time]}))).

(** [create_results_dataframe( *args )]: with no argument neither branch
    assigns [df], and [return df] fails. *)
Definition create_results_dataframe (args : list frame) : M frame :=
  match args with
  | [] => raise (UnboundLocalError "df")
  | [a] => ret a
  | _ => ret (concat args)
  end.

(** ** save_result_data *)

(** [results.to_csv(path, index=False)] *)
Definition results_to_csv (results : pyobj) (path : value) : M unit :=
  match results with
  | OFrame df =>
      match to_csv L df path with
      | Some e => raise (Propagated e)
      | None => emit (ToCsv path df)
      end
  | _ => raise (AttributeError "to_csv")
  end.

(** [dump(obj, path)] *)
Definition dump (obj : pyobj) (path : value) : M unit :=
  match joblib_dump L obj path with
  | Some e => raise (Propagated e)
  | None => emit (Dump obj path)
  end.

(** [warn(msg)]: the event records that [warnings.warn] was called.  Whether
    the warning is then shown is decided by the warning filters of the
    process, which this module sets to ignore when it is imported
    ([filterwarnings] at line 22). *)
Definition warn (msg : string) : M unit := emit (Warn msg).

(** The decorator.  [args] are the positional arguments of the call, of
    whatever shape the decorated function takes; the wrapper hands them on
    and looks only into [kwargs]. *)
Definition save_result_data {A} (func : A → gmap string value → M pyobj)
  : A → gmap string value → M pyobj :=
  λ args kwargs,
    returned_values <- func args kwargs ;;
    let results := (unpack returned_values).1 in
    let additional_results := (unpack returned_values).2 in
    let save_results_path := kwargs_get kwargs "save_results_path" in
    let save_additional_results_path := kwargs_get kwargs "save_additional_results_path" in
    (if truthy save_results_path
     then results_to_csv results save_results_path
     else warn no_path_msg) ;;;
    additional <- truth additional_results ;;
    (if additional && truthy save_additional_results_path
     then dump additional_results save_additional_results_path
     else ret tt) ;;;
    ret results.

(** ** imputation_test *)

(** The inner loop body at lines 279-294. *)
Definition imputation_step (X : table) (y : labels)
    (num_features cat_features : list string)
    (model : loc) (model_name model_params : string)
    (results : frame) (entry : string * transformer) : M frame :=
  let imputer := entry.1 in
  let preprocessor := entry.2 in
  if String.eqb imputer "none" && negb (bool_decide (model_name ∈ HANDLE_MISSINGS_MODELS))
  then ret results
  else
    let preprocessor :=
      ColumnTransformer [(preprocessor, num_features);
                         (OneHotEncoder false, cat_features)] in
    o <- read model ;;
    let pipeline := MakePipeline [Transform preprocessor; Model o] in
    result <- cv_scores pipeline X y model_name model_params ;;
    let result := <["Imputation" := CStr imputer]> result in
    ret (results ++ [result]).

(** The function body, before decoration. *)
Definition imputation_test_body (X : table) (y : labels) (models : list loc)
    (preprocessors : list (string * transformer)) : M pyobj :=
  info <- prepare_models_info models PARAMS_TO_SAVE ;;
  let names := info.1 in
  let params := info.2 in
  let num_features := (create_preprocessor X).1.1 in
  let cat_features := (create_preprocessor X).1.2 in
  results <-
    for_each (zip models (zip names params)) []
      (λ results m,
         for_each preprocessors results
           (imputation_step X y num_features cat_features m.1 m.2.1 m.2.2)) ;;
  df <- create_results_dataframe [results] ;;
  ret (OFrame df).

(** The positional arguments of a call of [imputation_test]: the four
    required ones and, when the caller passes a fifth, [save_results_path]. *)
Record imputation_args := ImputationArgs {
  ia_X : table;
  ia_y : labels;
  ia_models : list loc;
  ia_preprocessors : list (string * transformer);
  ia_save_results_path : option value
}.

(** Binding of the call [func( *args, **kwargs )] to the signature
    [(X, y, models, preprocessors, save_results_path=None)]. *)
Definition imputation_test_func (args : imputation_args) (kwargs : gmap string value)
  : M pyobj :=
  if negb (bool_decide (dom kwargs ⊆ ({["save_results_path"]} : gset string))) then
    raise (TypeError "got an unexpected keyword argument")
  else if bool_decide (is_Some (ia_save_results_path args))
          && bool_decide (is_Some (kwargs !! "save_results_path")) then
    raise (TypeError "got multiple values for argument 'save_results_path'")
  else
    imputation_test_body (ia_X args) (ia_y args) (ia_models args) (ia_preprocessors args).

Definition imputation_test : imputation_args → gmap string value → M pyobj :=
  save_result_data imputation_test_func.

(** ** randomized_search *)

(** [preprocessors[i]] *)
Definition subscript {A} (xs : list A) (i : nat) : M A :=
  match xs !! i with
  | Some x => ret x
  | None => raise IndexError
  end.

(** [np.where(rank == 1)]: the positions holding rank 1. *)
Fixpoint np_where_eq (ranks : list Z) (r : Z) (i : nat) : list nat :=
  match ranks with
  | [] => []
  | x :: rest => if Z.eqb x r then i :: np_where_eq rest r (S i) else np_where_eq rest r (S i)
  end.

(** [arr[idx][0]] for an array and the positions given by [np.where]. *)
Definition first_selected (arr : list float) (idx : list nat) : M float :=
  match mapM (λ i, arr !! i) idx with
  | Some (x :: _) => ret x
  | Some [] => raise (Propagated (LibExn "IndexError" "index 0 is out of bounds for axis 0 with size 0"))
  | None => raise (Propagated (LibExn "IndexError" "index is out of bounds"))
  end.

(** One iteration of the loop at lines 491-523; the locals it updates are
    [results] and [test_scores]. *)
Definition search_step (X : table) (y : labels) (preprocessors : list transformer)
    (n_iter : Z) (save_artifact_folder : string)
    (acc : frame * gmap string (list float))
    (entry : loc * gmap string (list value)) : M (frame * gmap string (list float)) :=
  let model := entry.1 in
  let param_grid := entry.2 in
  p0 <- subscript preprocessors 0 ;;
  p1 <- subscript preprocessors 1 ;;
  o <- read model ;;
  let pipeline := NamedPipeline [("preprocessor", Transform p0);
                                 ("remover", Transform p1);
                                 ("model", Model o)] in
  optimizer <- lift (randomized_search_cv L pipeline param_grid n_iter CV_SCHEME
                       "roc_auc" (-1) X y) ;;
  let model_name := class_name o in
  let roc_auc := np_round L (best_score_ optimizer) 4 in
  let test_scores := <[model_name := mean_test_score optimizer]> acc.2 in
  let idx := np_where_eq (rank_test_score optimizer) 1 0 in
  t <- first_selected (np_add L (mean_fit_time optimizer) (mean_score_time optimizer)) idx ;;
  let time := np_round L t 2 in
  let result : record :=
    <["Model" := CStr model_name]>
      (<["ROC_AUC" := CNum roc_auc]> {["Time[s]" := CNum time]}) in
  let results := acc.1 ++ [result] in
  let artifact_path := os_path_join save_artifact_folder (model_name +:+ ".pkl") in
  dump (OPipeline (best_estimator_ optimizer)) (VStr artifact_path) ;;;
  ret (results, test_scores).

Definition randomized_search_body (X : table) (y : labels) (models : list loc)
    (grids : list (gmap string (list value))) (preprocessors : list transformer)
    (n_iter : Z) (save_artifact_folder : string) : M pyobj :=
  acc <- for_each (zip models grids) ([], ∅)
           (search_step X y preprocessors n_iter save_artifact_folder) ;;
  df <- create_results_dataframe [acc.1] ;;
  ret (OTuple [OFrame df; OScores acc.2]).

(** The positional arguments of a call of [randomized_search]: the seven
    required ones, then whatever further positional arguments were passed
    (they bind [save_results_path], [save_additional_results_path]). *)
Record search_args := SearchArgs {
  sa_X : table;
  sa_y : labels;
  sa_models : list loc;
  sa_grids : list (gmap string (list value));
  sa_preprocessors : list transformer;
  sa_n_iter : Z;
  sa_save_artifact_folder : string;
  sa_more : list value
}.

Definition randomized_search_func (args : search_args) (kwargs : gmap string value)
  : M pyobj :=
  if negb (bool_decide (dom kwargs ⊆
             ({["save_results_path"; "save_additional_results_path"]} : gset string))) then
    raise (TypeError "got an unexpected keyword argument")
  else if (2 <? length (sa_more args))%nat then
    raise (TypeError "takes from 7 to 9 positional arguments")
  else if ((0 <? length (sa_more args))%nat
           && bool_decide (is_Some (kwargs !! "save_results_path")))
          || ((1 <? length (sa_more args))%nat
              && bool_decide (is_Some (kwargs !! "save_additional_results_path"))) then
    raise (TypeError "got multiple values for argument")
  else
    randomized_search_body (sa_X args) (sa_y args) (sa_models args) (sa_grids args)
      (sa_preprocessors args) (sa_n_iter args) (sa_save_artifact_folder args).

Definition randomized_search : search_args → gmap string value → M pyobj :=
  save_result_data randomized_search_func.

(** ** load_results_from_folder *)

Definition load_results_from_folder (folder_path : string) (columns_to_select : list string)
  : M frame :=
  names <- lift (os_listdir L folder_path) ;;
  results <-
    for_each names []
      (λ results file_name,
         if endswith file_name ".csv" then
           let file_path := os_path_join folder_path file_name in
           df <- lift (read_csv L file_path) ;;
           result_df <- lift (select_columns L df columns_to_select) ;;
           ret (results ++ [result_df])
         else ret results) ;;
  create_results_dataframe results.

(** ** process_fold *)

(** [estimator_copy.fit(X_train, y_train)]: the object the method is called
    on is the one that changes. *)
Definition estimator_fit (target : loc) (X : table) (y : labels) : M unit :=
  o <- read target ;;
  let fitted := fit L o X y in
  write target fitted.1 ;;;
  match fitted.2 with
  | Some e => raise (Propagated e)
  | None => ret tt
  end.

(** [proba[:, 1]] *)
Definition column_1 (proba : list (list float)) : M (list float) :=
  match mapM (λ row : list float, row !! 1%nat) proba with
  | Some col => ret col
  | None => raise (Propagated (LibExn "IndexError" "index 1 is out of bounds for axis 1"))
  end.

Definition process_fold (train_idx test_idx : list nat) (X : table) (y : labels)
    (estimator : loc) : M (labels * list float) :=
  X_train <- iloc (rows X) train_idx ;;
  X_test <- iloc (rows X) test_idx ;;
  y_train <- iloc y train_idx ;;
  y_test <- iloc y test_idx ;;
  estimator_copy <- deepcopy estimator ;;
  estimator_fit estimator_copy (Table (columns X) X_train) y_train ;;;
  fitted <- read estimator_copy ;;
  proba <- lift (predict_proba L fitted (Table (columns X) X_test)) ;;
  y_proba <- column_1 proba ;;
  ret (y_test, y_proba).

End Experiments.

(** ** Reading a run *)

(** The events a computation added to the log of the world it started in. *)
Definition events_since (before after : world) : list event :=
  drop (length (log before)) (log after).

Definition is_dump (e : event) : bool :=
  match e with Dump _ _ => true | _ => false end.

(** [with_params d o]: the object [o] after [set_params] with [d]. *)
Definition with_params (d : gmap string value) (o : estimator) : estimator :=
  Estimator (class_name o) (d ∪ params o) (learned o).

(** The parameter dictionaries an element of [model_params] holds. *)
Definition dicts_of (p : params_elem) : list (gmap string value) :=
  match p with
  | PDict d => [d]
  | PList ds => ds
  | POther _ => []
  end.

(** The total number of parameter dictionaries supplied. *)
Definition total_dicts (model_params : list params_elem) : nat :=
  length (flat_map dicts_of model_params).

(** Each parameter dictionary beside the base model it is given for. *)
Definition settings (base_models : list loc) (model_params : list params_elem)
  : list (loc * gmap string value) :=
  flat_map (λ lp : loc * params_elem, (λ d, (lp.1, d)) <$> dicts_of lp.2)
           (zip base_models model_params).

(** A pair of the imputation loop that is fitted and scored, not skipped. *)
Definition scored (model_name imputer : string) : bool :=
  negb (String.eqb imputer "none" && negb (bool_decide (model_name ∈ HANDLE_MISSINGS_MODELS))).

Definition scored_pairs (names : list string) (preprocessors : list (string * transformer))
  : nat :=
  sum_list ((λ name, length (filter (λ e : string * transformer, scored name e.1 = true)
                                    preprocessors)) <$> names).

(** Whether [save_results_path] reaches the call at all, by position or by
    keyword, with a value other than [None]. *)
Definition path_passed (positional : option value) (kwargs : gmap string value) : bool :=
  match positional with
  | Some v => negb (bool_decide (v = VNone))
  | None => negb (bool_decide (kwargs_get kwargs "save_results_path" = VNone))
  end.

(** Properties of the world that every step of a computation keeps. *)
Definition preserves {A} (R : world → world → Prop) (m : M A) : Prop :=
  ∀ w, R w (m w).1.

(** The objects that existed keep their address and content; the log is
    untouched. *)
Definition only_allocates (w w' : world) : Prop :=
  (∃ news, heap w' = heap w ++ news) ∧ log w' = log w.

(** [random_state] is 42, and [n_jobs] is -1 if the estimator has it. *)
Definition has_defaults (o : estimator) : Prop :=
  params o !! "random_state" = Some (VInt RANDOM_STATE)
  ∧ ("n_jobs" ∈ dom (get_params o) → params o !! "n_jobs" = Some (VInt (-1))).

(** [accepts o d]: every key of [d] is a parameter of [o]. *)
Definition accepts (o : estimator) (d : gmap string value) : bool :=
  bool_decide (dom d ⊆ dom (get_params o)).

(** [usable h l p]: in the heap [h], [l] is an estimator that has a
    [random_state] parameter, and [p] is a dict or a list of dicts whose keys
    are all parameters of that estimator. *)
Definition usable (h : list estimator) (l : loc) (p : params_elem) : bool :=
  match h !! l with
  | None => false
  | Some o =>
      bool_decide ("random_state" ∈ dom (get_params o))
      && forallb (accepts o) (dicts_of p)
      && match p with POther _ => false | _ => true end
  end.

(** The objects of [h] are still in [h'], with the same parameter names. *)
Definition same_parameters (h h' : list estimator) : Prop :=
  ∀ l o, h !! l = Some o → ∃ o', h' !! l = Some o' ∧ dom (params o') = dom (params o).




(** The exceptions a computation can end with. *)
Definition raises_only {A} (E : exn → Prop) (m : M A) : Prop :=
  ∀ w, match (m w).2 with
       | inl e => E e
       | inr _ => True
       end.

(** Not built by a [raise] statement of the repository. *)
Definition foreign (e : exn) : Prop := constructed_by_repository e = false.

(** The dump of a model artifact: a fitted pipeline written by [joblib.dump]. *)
Definition is_artifact_dump (e : event) : bool :=
  match e with
  | Dump (OPipeline _) _ => true
  | _ => false
  end.

(** The row of the ranking a model is given in [randomized_search]: exactly
    the fields Model, ROC_AUC and Time[s], with the class name as Model. *)
Definition ranking_row (class : string) (row : record) : Prop :=
  dom row = ({["Model"; "ROC_AUC"; "Time[s]"]} : gset string)
  ∧ row !! "Model" = Some (CStr class)
  ∧ (∃ score, row !! "ROC_AUC" = Some (CNum score))
  ∧ (∃ time, row !! "Time[s]" = Some (CNum time)).

(** The artifact written for the model at [entry.1], searched over the grid
    [entry.2]: the best estimator the search found, at the path made of the
    folder, the class name and the extension. *)
Definition artifact_of (L : library) (args : search_args) (h : list estimator)
    (entry : loc * gmap string (list value)) (e : event) : Prop :=
  ∃ o p0 p1 found,
    h !! entry.1 = Some o
    ∧ sa_preprocessors args !! 0%nat = Some p0
    ∧ sa_preprocessors args !! 1%nat = Some p1
    ∧ randomized_search_cv L
        (NamedPipeline [("preprocessor", Transform p0); ("remover", Transform p1);
                        ("model", Model o)])
        entry.2 (sa_n_iter args) CV_SCHEME "roc_auc" (-1) (sa_X args) (sa_y args)
      = inr found
    ∧ e = Dump (OPipeline (best_estimator_ found))
               (VStr (os_path_join (sa_save_artifact_folder args) (class_name o +:+ ".pkl"))).

(** The events of the two saving steps of the wrapper, and whether each
    step ends without an exception. *)
Definition csv_step_events (L : library) (path : value) (results : pyobj) : list event :=
  if truthy path then
    match results with
    | OFrame df => match to_csv L df path with None => [ToCsv path df] | Some _ => [] end
    | _ => []
    end
  else [Warn no_path_msg].

Definition csv_step_ok (L : library) (path : value) (results : pyobj) : bool :=
  if truthy path then
    match results with
    | OFrame df => match to_csv L df path with None => true | Some _ => false end
    | _ => false
    end
  else true.

Definition dump_step_events (L : library) (apath : value) (extra : pyobj) : list event :=
  match truth_value extra with
  | inr true =>
      if truthy apath
      then match joblib_dump L extra apath with None => [Dump extra apath] | Some _ => [] end
      else []
  | _ => []
  end.

Definition dump_step_ok (L : library) (apath : value) (extra : pyobj) : bool :=
  match truth_value extra with
  | inr true =>
      if truthy apath
      then match joblib_dump L extra apath with None => true | Some _ => false end
      else true
  | inr false => true
  | inl _ => false
  end.

(** ** A small library and a small world, to run the code on *)

Module Sample.

Definition cv : cv_results := CvResults [F64 1; F64 2] [F64 3; F64 4] [F64 5; F64 6].

Definition sr (p : pipeline) : search_results :=
  SearchResults (F64 7) p [F64 8; F64 9] [2; 1] [F64 10; F64 11] [F64 12; F64 13].

Definition lib : library := {|
  np_round := λ x _, x;
  np_mean := λ xs, default (F64 0) (head xs);
  np_add := λ xs ys, xs;
  cross_validate := λ _ _ _ _ _ _, inr cv;
  randomized_search_cv := λ p _ _ _ _ _ _ _, inr (sr p);
  fit := λ o _ _, (Estimator (class_name o) (params o) [F64 1], None);
  predict_proba := λ _ X, inr ((λ _, [F64 0; F64 1]) <$> rows X);
  to_csv := λ _ _, None;
  joblib_dump := λ _ _, None;
  os_listdir := λ folder, inr (if String.eqb folder "results" then ["a.csv"; "notes.txt"]
                               else ["notes.txt"]);
  read_csv := λ _, inr [];
  select_columns := λ df _, inr df
|}.

Definition forest : estimator :=
  Estimator "RandomForestClassifier"
    (<["random_state" := VNone]> (<["n_jobs" := VNone]> {["n_estimators" := VInt 100]})) [].

Definition tree : estimator :=
  Estimator "DecisionTreeClassifier"
    (<["random_state" := VNone]> {["max_depth" := VNone]}) [].

Definition hist : estimator :=
  Estimator "HistGradientBoostingClassifier"
    (<["random_state" := VNone]> {["max_iter" := VInt 100]}) [].

Definition w0 : world := World [forest; tree; hist] [].

Definition X : table := Table [("income", Number); ("city", Object)] [[VInt 1; VStr "a"]; [VInt 2; VStr "b"]].
Definition y : labels := [VInt 0; VInt 1].

(** [create_models([forest, tree], [{...}, [{...}, {...}]])] *)
Definition base_models : list loc := [0; 1]%nat.

Definition model_params : list params_elem :=
  [PDict {["n_estimators" := VInt 5]};
   PList [{["max_depth" := VInt 3]}; {["max_depth" := VInt 4]}]].

(** [imputation_test(X, y, [forest], preprocessors, ...)] *)
Definition preprocessors : list (string * transformer) :=
  [("none", UserTransformer "passthrough"); ("mean", SimpleImputer "mean" 0)].

(** The path passed as the fifth positional argument. *)
Definition positional_call : imputation_args :=
  ImputationArgs X y [0%nat] preprocessors (Some (VStr "out.csv")).

(** The path passed by keyword. *)
Definition keyword_call : imputation_args :=
  ImputationArgs X y [0%nat] preprocessors None.

Definition keyword_path : gmap string value := {["save_results_path" := VStr "out.csv"]}.

(** [randomized_search(X, y, [forest, tree], [{}, {}], [a, b], 5, "artifacts",
    save_additional_results_path="scores.pkl")] *)
Definition search_call : search_args :=
  SearchArgs X y [0; 1]%nat [∅; ∅] [UserTransformer "a"; UserTransformer "b"] 5
    "artifacts" [].

Definition search_kwargs : gmap string value :=
  {["save_additional_results_path" := VStr "scores.pkl"]}.

Definition search_run : world * (exn + pyobj) :=
  randomized_search_func lib search_call search_kwargs w0.

Definition search_frame : frame :=
  match search_run.2 with
  | inr (OTuple [OFrame df; _]) => df
  | _ => []
  end.

Definition search_scores : pyobj :=
  match search_run.2 with
  | inr (OTuple [_; extra]) => extra
  | _ => ONone
  end.

(** What a run returned, or [d] if it raised. *)
Definition returned {A} (r : world * (exn + A)) (d : A) : A :=
  match r.2 with
  | inr v => v
  | inl _ => d
  end.

End Sample.

(** * The rest of the module *)

(** ** cat_encoding_test *)

(** The inner loop body at lines 360-372.  No pair is skipped here. *)
Definition cat_encoding_step (L : library) (X : table) (y : labels)
    (num_features cat_features : list string)
    (model : loc) (model_name model_params : string)
    (results : frame) (entry : string * transformer) : M frame :=
  let encoder := entry.1 in
  let preprocessor := entry.2 in
  let preprocessor :=
    ColumnTransformer [(SimpleImputer "constant" (-1), num_features);
                       (preprocessor, cat_features)] in
  o <- read model ;;
  let pipeline := MakePipeline [Transform preprocessor; Model o] in
  result <- cv_scores L pipeline X y model_name model_params ;;
  let result := <["Encoder" := CStr encoder]> result in
  ret (results ++ [result]).

Definition cat_encoding_test_body (L : library) (X : table) (y : labels)
    (models : list loc) (preprocessors : list (string * transformer)) : M pyobj :=
  info <- prepare_models_info models PARAMS_TO_SAVE ;;
  let names := info.1 in
  let params := info.2 in
  let num_features := (create_preprocessor X).1.1 in
  let cat_features := (create_preprocessor X).1.2 in
  results <-
    for_each (zip models (zip names params)) []
      (λ results m,
         for_each preprocessors results
           (cat_encoding_step L X y num_features cat_features m.1 m.2.1 m.2.2)) ;;
  df <- create_results_dataframe [results] ;;
  ret (OFrame df).

(** The signature is that of [imputation_test]:
    [(X, y, models, preprocessors, save_results_path=None)]. *)
Definition cat_encoding_test_func (L : library) (args : imputation_args)
    (kwargs : gmap string value) : M pyobj :=
  if negb (bool_decide (dom kwargs ⊆ ({["save_results_path"]} : gset string))) then
    raise (TypeError "got an unexpected keyword argument")
  else if bool_decide (is_Some (ia_save_results_path args))
          && bool_decide (is_Some (kwargs !! "save_results_path")) then
    raise (TypeError "got multiple values for argument 'save_results_path'")
  else
    cat_encoding_test_body L (ia_X args) (ia_y args) (ia_models args) (ia_preprocessors args).

Definition cat_encoding_test (L : library)
  : imputation_args → gmap string value → M pyobj :=
  save_result_data L (cat_encoding_test_func L).

(** ** evaluate_discrimination_thresholds, thresholds_results_plot *)

(** Unpacking a tuple into a fixed number of names fails, with a ValueError
    of the interpreter, when the tuple has another length.  No [raise]
    statement builds it and no library call raises it, so it is kept apart
    from [exn]. *)
Inductive pyexn :=
| Exn (e : exn)
| UnpackError (expected got : nat).

(** Code that may also fail to unpack. *)
Definition P (A : Type) : Type := world → world * (pyexn + A).

Definition pret {A} (a : A) : P A := λ w, (w, inr a).

Definition praise {A} (e : pyexn) : P A := λ w, (w, inl e).

Definition pbind {A B} (m : P A) (k : A → P B) : P B :=
  λ w, match m w with
       | (w1, inl e) => (w1, inl e)
       | (w1, inr a) => k a w1
       end.

(** Code of the first kind, run inside code of the second. *)
Definition run {A} (m : M A) : P A :=
  λ w, match m w with
       | (w1, inl e) => (w1, inl (Exn e))
       | (w1, inr a) => (w1, inr a)
       end.

Notation "x <~ c1 ;; c2" := (pbind c1 (λ x, c2))
  (at level 100, c1 at next level, right associativity) : py_scope.

Fixpoint pfor_each {A} (xs : list A) (body : A → P unit) : P unit :=
  match xs with
  | [] => pret tt
  | x :: rest => _ <~ body x ;; pfor_each rest body
  end.

(** [enumerate(xs)], counting from [i]. *)
Fixpoint enumerate {A} (i : nat) (xs : list A) : list (nat * A) :=
  match xs with
  | [] => []
  | x :: rest => (i, x) :: enumerate (S i) rest
  end.

(** [d[key] = v] on a dict, which keeps the order of insertion: a key that is
    there keeps its place. *)
Fixpoint dict_set {V} (d : list (string * V)) (key : string) (v : V) : list (string * V) :=
  match d with
  | [] => [(key, v)]
  | (k, old) :: rest =>
      if String.eqb k key then (k, v) :: rest else (k, old) :: dict_set rest key v
  end.

(** The calls into matplotlib, with what they are given. *)
Inductive plot_call :=
| Subplots (nrows ncols : nat) (width height : Z)
| Plot (axis : nat) (xs ys : list float) (color label : string)
| Scatter (axis : nat) (x y : float) (color label : string)
| Axvline (axis : nat) (x : float) (color linestyle label : string)
| SetTitle (axis : nat) (title : string)
| SetXlabel (axis : nat) (label : string)
| SetYlabel (axis : nat) (label : string)
| SetXticks (axis : nat)
| SetYticks (axis : nat)
| Legend (axis : nat)
| TightLayout.

(** The metrics, the splitter and numpy's [argmax]; matplotlib and the
    formatting of a float.  [to_labels] is [src.utils.to_labels], a helper of
    the repository that is not among the sources: it is taken as it comes,
    free to raise. *)
Record scoring := Scoring {
  cv_split : cv_scheme → table → labels → lib_exn + list (list nat * list nat);
  to_labels : list float → float → exn + labels;
  f1_score : labels → labels → lib_exn + float;
  precision_score : labels → labels → lib_exn + float;
  recall_score : labels → labels → lib_exn + float;
  geometric_mean_score : labels → labels → lib_exn + float;
  np_argmax : list float → nat;
  matplotlib : plot_call → option lib_exn;
  format_2f : float → string;
  format_float : float → string
}.

(** [np.argmax(xs)]: numpy refuses an empty sequence. *)
Definition argmax (S : scoring) (xs : list float) : M nat :=
  match xs with
  | [] => raise (Propagated (LibExn "ValueError" "attempt to get argmax of an empty sequence"))
  | _ => ret (np_argmax S xs)
  end.

(** [arr[i]] on a numpy array. *)
Definition numpy_subscript {A} (arr : list A) (i : nat) : M A :=
  match arr !! i with
  | Some x => ret x
  | None => raise (Propagated (LibExn "IndexError" "index is out of bounds for axis 0"))
  end.

(** One call into matplotlib. *)
Definition plt (S : scoring) (c : plot_call) : M unit :=
  match matplotlib S c with
  | Some e => raise (Propagated e)
  | None => ret tt
  end.

(** The axes of [plt.subplots(2, 2)], flattened. *)
Definition flattened_axes : list nat := [0; 1; 2; 3]%nat.

(** The loop body of [thresholds_results_plot], lines 176-194 of visuals.py.
    [item] is [(i, (estimator_name, scores))]. *)
Definition plot_estimator (S : scoring) (thresholds optimal_thresholds : list float)
    (item : nat * (string * list (list float))) : P unit :=
  let i := item.1 in
  let estimator_name := item.2.1 in
  let scores := item.2.2 in
  match scores with
  | [f1_scores; precision_scores; recall_scores] =>
      run (max_f1_idx <- argmax S f1_scores ;;
           max_f1 <- subscript f1_scores max_f1_idx ;;
           ax_i <- numpy_subscript flattened_axes i ;;
           plt S (Plot ax_i thresholds precision_scores "orange" "Precision") ;;;
           plt S (Plot ax_i thresholds recall_scores "blue" "Recall") ;;;
           plt S (Plot ax_i thresholds f1_scores "green" "F1 Score") ;;;
           x <- numpy_subscript thresholds max_f1_idx ;;
           plt S (Scatter ax_i x max_f1 "darkgreen" ("Max F1 = " +:+ format_2f S max_f1)) ;;;
           optimal <- subscript optimal_thresholds i ;;
           plt S (Axvline ax_i optimal "black" "--"
                    ("Optimal threshold = " +:+ format_float S optimal)) ;;;
           plt S (SetTitle ax_i estimator_name) ;;;
           plt S (SetXlabel ax_i "Threshold") ;;;
           plt S (SetYlabel ax_i "Score") ;;;
           plt S (SetXticks ax_i) ;;;
           plt S (SetYticks ax_i) ;;;
           plt S (Legend ax_i))
  | _ => praise (UnpackError 3 (length scores))
  end.

Definition thresholds_results_plot (S : scoring)
    (results : list (string * list (list float)))
    (thresholds optimal_thresholds : list float) : P unit :=
  _ <~ run (plt S (Subplots 2 2 12 8)) ;;
  _ <~ pfor_each (enumerate 0 results) (plot_estimator S thresholds optimal_thresholds) ;;
  run (plt S TightLayout).

(** The four lists the evaluation fills, per fold and per threshold. *)
Record score_lists := ScoreLists {
  f1s : list float;
  precisions : list float;
  recalls : list float;
  g_means : list float
}.

(** The loop body at lines 672-683 of experiment_utils.py. *)
Definition score_fold (S : scoring) (threshold : float) (acc : score_lists)
    (fold_result : labels * list float) : M score_lists :=
  let y_test := fold_result.1 in
  let y_proba := fold_result.2 in
  y_pred <- (match to_labels S y_proba threshold with
             | inl e => raise e
             | inr y_pred => ret y_pred
             end) ;;
  f1 <- lift (f1_score S y_test y_pred) ;;
  precision <- lift (precision_score S y_test y_pred) ;;
  recall <- lift (recall_score S y_test y_pred) ;;
  g_mean <- lift (geometric_mean_score S y_test y_pred) ;;
  ret (ScoreLists (f1s acc ++ [f1]) (precisions acc ++ [precision])
                  (recalls acc ++ [recall]) (g_means acc ++ [g_mean])).

(** The loop body at lines 666-688. *)
Definition score_threshold (L : library) (S : scoring)
    (results_per_fold : list (labels * list float))
    (acc : score_lists) (threshold : float) : M score_lists :=
  cv <- for_each results_per_fold (ScoreLists [] [] [] []) (score_fold S threshold) ;;
  ret (ScoreLists (f1s acc ++ [np_mean L (f1s cv)])
                  (precisions acc ++ [np_mean L (precisions cv)])
                  (recalls acc ++ [np_mean L (recalls cv)])
                  (g_means acc ++ [np_mean L (g_means cv)])).

(** The loop body at lines 655-694; the locals it updates are [results] and
    [optimal_thresholds].  The folds are processed one after the other:
    joblib may run them in worker processes, where the copies they make
    live, and hands the results back in order. *)
Definition evaluate_estimator (L : library) (S : scoring) (X : table) (y : labels)
    (thresholds : list float)
    (acc : list (string * list (list float)) * list float)
    (entry : string * loc)
  : M (list (string * list (list float)) * list float) :=
  let estimator_name := entry.1 in
  let estimator := entry.2 in
  folds <- lift (cv_split S CV_SCHEME X y) ;;
  results_per_fold <-
    comprehension (λ fold : list nat * list nat, process_fold L fold.1 fold.2 X y estimator)
                  folds ;;
  scores <- for_each thresholds (ScoreLists [] [] [] [])
              (score_threshold L S results_per_fold) ;;
  best <- argmax S (g_means scores) ;;
  optimal_threshold <- numpy_subscript thresholds best ;;
  ret (dict_set acc.1 estimator_name
         [f1s scores; precisions scores; recalls scores; g_means scores],
       acc.2 ++ [optimal_threshold]).

(** [X.copy()], [y.copy()] and [reset_index(drop=True)] give tables with the
    same rows in the same order; rows are known here by position only, so
    the copies are [X] and [y] themselves. *)
Definition evaluate_discrimination_thresholds (L : library) (S : scoring)
    (estimators : list (string * loc)) (X : table) (y : labels) (thresholds : list float)
  : P (list (string * list (list float)) * list float) :=
  acc <~ run (for_each estimators ([], []) (evaluate_estimator L S X y thresholds)) ;;
  _ <~ thresholds_results_plot S acc.1 thresholds acc.2 ;;
  pret acc.

(** ** Further readings of a run *)

(** [loaded L folder cols name fr]: [fr] is the file [name] of the folder,
    read as CSV and cut down to the columns. *)
Definition loaded (L : library) (folder_path : string) (columns_to_select : list string)
    (file_name : string) (fr : frame) : Prop :=
  ∃ df, read_csv L (os_path_join folder_path file_name) = inr df
        ∧ select_columns L df columns_to_select = inr fr.

(** A row of [imputation_test]: the four fields of [cv_scores], the imputer,
    and never the imputer none beside a model that cannot take missing
    values. *)
Definition imputation_row (row : record) : Prop :=
  dom row = ({["Model"; "Parameters"; "ROC_AUC"; "Time[s]"; "Imputation"]} : gset string)
  ∧ ∃ model_name imputer,
      row !! "Model" = Some (CStr model_name)
      ∧ row !! "Imputation" = Some (CStr imputer)
      ∧ (imputer = "none" → model_name ∈ HANDLE_MISSINGS_MODELS).

(** A row of [cat_encoding_test] for the model name and the encoder. *)
Definition encoding_row (model_name encoder : string) (row : record) : Prop :=
  dom row = ({["Model"; "Parameters"; "ROC_AUC"; "Time[s]"; "Encoder"]} : gset string)
  ∧ row !! "Model" = Some (CStr model_name)
  ∧ row !! "Encoder" = Some (CStr encoder).

(** Some index is out of range for the rows of [X] or for [y]. *)
Definition out_of_range (X : table) (y : labels) (idx : list nat) : Prop :=
  Exists (λ i, (length (rows X) ≤ i ∨ length y ≤ i)%nat) idx.

(** Cases to run the further code on. *)
Module Cases.

Definition scorer : scoring := {|
  cv_split := λ _ _ _, inr [([0%nat], [1%nat]); ([1%nat], [0%nat])];
  to_labels := λ proba _, inr ((λ _, VInt 1) <$> proba);
  f1_score := λ _ _, inr (F64 1);
  precision_score := λ _ _, inr (F64 2);
  recall_score := λ _ _, inr (F64 3);
  geometric_mean_score := λ _ _, inr (F64 4);
  np_argmax := λ _, 0%nat;
  matplotlib := λ _, None;
  format_2f := λ _, "0.00";
  format_float := λ _, "0.5"
|}.

(** One base model, two dictionaries: more dictionaries than base models. *)
Definition chained : list (gmap string value) :=
  [{["n_estimators" := VInt 5]}; {["n_jobs" := VInt 2]}].

(** A folder with two CSV files and one other file. *)
Definition folder_lib : library := {|
  np_round := np_round Sample.lib;
  np_mean := np_mean Sample.lib;
  np_add := np_add Sample.lib;
  cross_validate := cross_validate Sample.lib;
  randomized_search_cv := randomized_search_cv Sample.lib;
  fit := fit Sample.lib;
  predict_proba := predict_proba Sample.lib;
  to_csv := λ _ _, Some (LibExn "OSError" "No such file or directory");
  joblib_dump := joblib_dump Sample.lib;
  os_listdir := λ _, inr ["a.csv"; "notes.txt"; "b.csv"];
  read_csv := λ path, inr [{["Model" := CStr path]}];
  select_columns := λ df _, inr df
|}.

(** Two models of one class. *)
Definition twins : world := World [Sample.forest; Sample.forest] [].

Definition twin_search : search_args :=
  SearchArgs Sample.X Sample.y [0; 1]%nat [∅; ∅]
    [UserTransformer "a"; UserTransformer "b"] 5 "artifacts" [].

(** Three models, two grids. *)
Definition short_search : search_args :=
  SearchArgs Sample.X Sample.y [0; 1; 2]%nat [∅; ∅]
    [UserTransformer "a"; UserTransformer "b"] 5 "artifacts" [].

(** One preprocessor where two are indexed. *)
Definition one_preprocessor : search_args :=
  SearchArgs Sample.X Sample.y [0]%nat [∅] [UserTransformer "a"] 5 "artifacts" [].

End Cases.

(** * Properties *)

(** ** Running the monad *)

Lemma bind_run {A B} (m : M A) (k : A → M B) (w : world) :
  bind m k w = match m w with
               | (w1, inl e) => (w1, inl e)
               | (w1, inr a) => k a w1
               end.
Proof. reflexivity. Qed.

Lemma bind_inr {A B} (m : M A) (k : A → M B) w w' b :
  bind m k w = (w', inr b) →
  ∃ w1 a, m w = (w1, inr a) ∧ k a w1 = (w', inr b).
Proof.
  rewrite bind_run. destruct (m w) as [w1 [e|a]]; [discriminate|]. eauto.
Qed.

Lemma ret_inr {A} (a b : A) w w' : ret a w = (w', inr b) → w' = w ∧ b = a.
Proof. unfold ret. intros [= -> ->]. done. Qed.

Lemma lift_inr {A} (r : lib_exn + A) w w' a : lift r w = (w', inr a) → w' = w ∧ r = inr a.
Proof. destruct r; unfold lift, raise, ret; intros [= -> ?]; subst; done. Qed.

Lemma read_inr l w w' o : read l w = (w', inr o) → w' = w ∧ heap w !! l = Some o.
Proof. unfold read. destruct (heap w !! l); intros [= -> ?]; subst; done. Qed.

Section Preserves.
Context (R : world → world → Prop) `{!Reflexive R, !Transitive R}.

Lemma preserves_ret {A} (a : A) : preserves R (ret a).
Proof. intros w. reflexivity. Qed.

Lemma preserves_raise {A} e : preserves R (@raise A e).
Proof. intros w. reflexivity. Qed.

Lemma preserves_lift {A} (r : lib_exn + A) : preserves R (lift r).
Proof. destruct r; [apply preserves_raise | apply preserves_ret]. Qed.

Lemma preserves_read l : preserves R (read l).
Proof. intros w. unfold read. destruct (heap w !! l); reflexivity. Qed.

Lemma preserves_bind {A B} (m : M A) (k : A → M B) :
  preserves R m → (∀ a, preserves R (k a)) → preserves R (bind m k).
Proof.
  intros Hm Hk w. rewrite bind_run. specialize (Hm w).
  destruct (m w) as [w1 [e|a]]; simpl in *; [done|].
  etransitivity; [exact Hm | apply Hk].
Qed.

Lemma preserves_for_each {A B} (xs : list A) (body : B → A → M B) :
  (∀ acc x, preserves R (body acc x)) → ∀ acc, preserves R (for_each xs acc body).
Proof.
  intros Hb. induction xs as [|x xs IH]; intros acc; simpl.
  - apply preserves_ret.
  - apply preserves_bind; [apply Hb | intros; apply IH].
Qed.

Lemma preserves_comprehension {A B} (f : A → M B) (xs : list A) :
  (∀ x, preserves R (f x)) → preserves R (comprehension f xs).
Proof.
  intros Hf. induction xs as [|x xs IH]; simpl.
  - apply preserves_ret.
  - apply preserves_bind; [apply Hf | intros].
    apply preserves_bind; [apply IH | intros; apply preserves_ret].
Qed.
End Preserves.

(** Peels the monadic structure of a [preserves] goal, leaving the calls. *)
Ltac preserves_steps :=
  repeat first
    [ progress intros
    | match goal with
      | |- Reflexive _ => apply _
      | |- Transitive _ => apply _
      | |- preserves _ (ret _) => apply preserves_ret
      | |- preserves _ (raise _) => apply preserves_raise
      | |- preserves _ (lift _) => apply preserves_lift
      | |- preserves _ (read _) => apply preserves_read
      | |- preserves _ (bind _ _) => apply preserves_bind
      | |- preserves _ (for_each _ _ _) => apply preserves_for_each
      | |- preserves _ (comprehension _ _) => apply preserves_comprehension
      end ].

#[local] Instance only_allocates_refl : Reflexive only_allocates.
Proof. intros w. split; [exists []; by rewrite app_nil_r | done]. Qed.

#[local] Instance only_allocates_trans : Transitive only_allocates.
Proof.
  intros w1 w2 w3 [[n1 H1] L1] [[n2 H2] L2]. split.
  - exists (n1 ++ n2). by rewrite H2, H1, app_assoc.
  - congruence.
Qed.

Lemma only_allocates_lookup w w' l o :
  only_allocates w w' → heap w !! l = Some o → heap w' !! l = Some o.
Proof. intros [[news ->] _] H. by apply lookup_app_l_Some. Qed.

(** ** set_params, set_model_params *)

Lemma set_model_params_inr model d w w' c :
  set_model_params model d w = (w', inr c) →
  ∃ o, heap w !! model = Some o ∧ c = length (heap w)
       ∧ w' = World (heap w ++ [with_params d o]) (log w).
Proof.
  unfold set_model_params, deepcopy, set_params.
  rewrite !bind_run. unfold read at 1.
  destruct (heap w !! model) as [o|] eqn:Ho; [|discriminate].
  unfold alloc. rewrite !bind_run. unfold read. simpl.
  rewrite list_lookup_middle by done.
  case_bool_decide; simpl; [|discriminate].
  intros [= <- <-]. exists o. split_and!; [done..|].
  f_equal. rewrite insert_app_r_alt by done.
  by rewrite Nat.sub_diag.
Qed.

Lemma set_model_params_allocates model d :
  preserves only_allocates (set_model_params model d).
Proof.
  intros w. unfold set_model_params, deepcopy, set_params.
  rewrite !bind_run. unfold read at 1.
  destruct (heap w !! model) as [o|] eqn:Ho; [|reflexivity].
  unfold alloc. rewrite !bind_run. unfold read. simpl.
  rewrite list_lookup_middle by done.
  case_bool_decide; simpl.
  - split; [|done]. simpl. eexists [_].
    rewrite insert_app_r_alt by done. by rewrite Nat.sub_diag.
  - split; [|done]. simpl. by eexists [_].
Qed.

(** ** create_models: the defaults written on the base models *)

Lemma set_defaults_inr model w w' r :
  set_defaults model w = (w', inr r) →
  r = model ∧ log w' = log w ∧ length (heap w') = length (heap w)
  ∧ (∃ o, heap w' !! model = Some o ∧ has_defaults o)
  ∧ (∀ l o, heap w !! l = Some o → has_defaults o →
            ∃ o', heap w' !! l = Some o' ∧ has_defaults o').
Proof.
  unfold set_defaults, set_params. rewrite bind_run. unfold read at 1.
  destruct (heap w !! model) as [o|] eqn:Ho; [|discriminate].
  assert (Hlt : (model < length (heap w))%nat) by (by eapply lookup_lt_Some).
  case_bool_decide as Hn; rewrite bind_run; unfold read; rewrite Ho;
    (case_bool_decide as Hsub; [|discriminate]); simpl;
    intros [= <- <-]; simpl; (split_and!; [done | done | by rewrite length_insert | |]).
  - eexists. split; [by apply list_lookup_insert_eq|]. split; simpl.
    + apply lookup_union_Some_l. by rewrite lookup_insert_eq.
    + intros _. apply lookup_union_Some_l.
      rewrite lookup_insert_ne by done. by rewrite lookup_singleton_eq.
  - intros l o2 Hl Hd. destruct (decide (l = model)) as [->|Hne].
    + eexists. split; [by apply list_lookup_insert_eq|]. split; simpl.
      * apply lookup_union_Some_l. by rewrite lookup_insert_eq.
      * intros _. apply lookup_union_Some_l.
        rewrite lookup_insert_ne by done. by rewrite lookup_singleton_eq.
    + exists o2. by rewrite list_lookup_insert_ne.
  - eexists. split; [by apply list_lookup_insert_eq|]. split; simpl.
    + apply lookup_union_Some_l. by rewrite lookup_singleton_eq.
    + unfold get_params in *. simpl. intros Hin. exfalso. apply Hn.
      rewrite dom_union in Hin. apply elem_of_union in Hin as [Hin|Hin]; [|done].
      rewrite dom_singleton in Hin. by apply elem_of_singleton in Hin.
  - intros l o2 Hl Hd. destruct (decide (l = model)) as [->|Hne].
    + eexists. split; [by apply list_lookup_insert_eq|]. split; simpl.
      * apply lookup_union_Some_l. by rewrite lookup_singleton_eq.
      * unfold get_params in *. simpl. intros Hin. exfalso. apply Hn.
        rewrite dom_union in Hin. apply elem_of_union in Hin as [Hin|Hin]; [|done].
        rewrite dom_singleton in Hin. by apply elem_of_singleton in Hin.
    + exists o2. by rewrite list_lookup_insert_ne.
Qed.

Lemma defaults_comprehension_inr base : ∀ w w' models,
  comprehension set_defaults base w = (w', inr models) →
  models = base ∧ log w' = log w ∧ length (heap w') = length (heap w)
  ∧ Forall (λ l, ∃ o, heap w' !! l = Some o ∧ has_defaults o) base
  ∧ (∀ l o, heap w !! l = Some o → has_defaults o →
            ∃ o', heap w' !! l = Some o' ∧ has_defaults o').
Proof.
  induction base as [|b base IH]; intros w w' models; simpl.
  - intros [-> ->]%ret_inr. split_and!; eauto.
  - intros (w1 & r & H1 & H)%bind_inr.
    apply bind_inr in H as (w2 & ys & H2 & H).
    apply ret_inr in H as [-> ->].
    apply set_defaults_inr in H1 as (-> & L1 & N1 & (o & Ho & Hd) & K1).
    apply IH in H2 as (-> & L2 & N2 & F2 & K2).
    split_and!; [done | congruence | congruence | | ].
    + constructor; [by eapply K2 | done].
    + intros l o2 Hl Hd2. destruct (K1 l o2 Hl Hd2) as (o3 & Hl3 & Hd3). eauto.
Qed.

(** ** create_models: the models appended for the parameter dictionaries *)

Lemma for_each_copies_inr model ds : ∀ models w w' out,
  for_each ds models
    (λ models param_dict, c <- set_model_params model param_dict ;; ret (models ++ [c])) w
    = (w', inr out) →
  ∃ news, out = models ++ seq (length (heap w)) (length news)
          ∧ heap w' = heap w ++ news ∧ log w' = log w
          ∧ Forall2 (λ o' d, ∃ b, heap w !! model = Some b ∧ o' = with_params d b) news ds.
Proof.
  induction ds as [|d ds IH]; intros models w w' out; simpl.
  - intros [-> ->]%ret_inr. exists []. simpl. by rewrite !app_nil_r.
  - intros (w1 & acc & H1 & H)%bind_inr.
    apply bind_inr in H1 as (w1' & c & Hc & Hr).
    apply ret_inr in Hr as [-> ->].
    apply set_model_params_inr in Hc as (o & Ho & -> & ->).
    apply IH in H as (news & -> & Hh & Hl & F). simpl in *.
    exists (with_params d o :: news). split_and!.
    + rewrite length_app, Nat.add_1_r. simpl. by rewrite <- app_assoc.
    + by rewrite Hh, <- app_assoc.
    + done.
    + constructor; [eauto|].
      eapply Forall2_impl; [exact F|]. simpl. intros o' d' (b & Hb & ->).
      exists b. split; [|done].
      rewrite lookup_app_l in Hb; [done|]. by eapply lookup_lt_Some.
Qed.

Lemma extend_models_inr models model p w w' out :
  extend_models models model p w = (w', inr out) →
  ∃ news, out = models ++ seq (length (heap w)) (length news)
          ∧ heap w' = heap w ++ news ∧ log w' = log w
          ∧ Forall2 (λ o' d, ∃ b, heap w !! model = Some b ∧ o' = with_params d b)
                    news (dicts_of p).
Proof.
  destruct p as [d|ds|v]; simpl.
  - intros (w1 & c & Hc & Hr)%bind_inr.
    apply ret_inr in Hr as [-> ->].
    apply set_model_params_inr in Hc as (o & Ho & -> & ->).
    exists [with_params d o]. simpl. split_and!; [done..|].
    constructor; [eauto | constructor].
  - apply for_each_copies_inr.
  - discriminate.
Qed.

Lemma zip_app_short {A B} (l1 l2 : list A) (k : list B) :
  (length k ≤ length l1)%nat → zip (l1 ++ l2) k = zip l1 k.
Proof.
  revert k. induction l1 as [|x l1 IH]; intros [|y k] Hk; simpl in *; try done.
  - by destruct l2.
  - lia.
  - f_equal. apply IH. lia.
Qed.

Lemma zip_loop_inr mps : ∀ i models w w' out,
  zip_loop i mps models w = (w', inr out) →
  (i + length mps ≤ length models)%nat →
  ∃ news, out = models ++ seq (length (heap w)) (length news)
          ∧ heap w' = heap w ++ news ∧ log w' = log w
          ∧ Forall2 (λ o' (s : loc * gmap string value),
                       ∃ b, heap w' !! s.1 = Some b ∧ o' = with_params s.2 b)
                    news (settings (drop i models) mps).
Proof.
  induction mps as [|p mps IH]; intros i models w w' out; simpl.
  - intros [-> ->]%ret_inr _. exists []. simpl. rewrite !app_nil_r.
    split_and!; [done..|]. unfold settings.
    destruct (drop i models); simpl; constructor.
  - intros H Hlen.
    destruct (models !! i) as [model|] eqn:Hm.
    2:{ apply lookup_ge_None in Hm. lia. }
    apply bind_inr in H as (w1 & models' & He & H).
    apply extend_models_inr in He as (news1 & -> & Hh1 & Hl1 & F1).
    apply IH in H as (news2 & -> & Hh2 & Hl2 & F2).
    2:{ rewrite length_app. lia. }
    exists (news1 ++ news2). split_and!.
    + rewrite Hh1, !length_app, seq_app, <- app_assoc. done.
    + by rewrite Hh2, Hh1, <- app_assoc.
    + congruence.
    + rewrite (drop_S _ _ _ Hm). unfold settings. simpl.
      apply Forall2_app.
      * apply Forall2_fmap_r. eapply Forall2_impl; [exact F1|].
        simpl. intros o' d (b & Hb & ->). exists b. split; [|done].
        rewrite Hh2, Hh1. by do 2 apply lookup_app_l_Some.
      * rewrite drop_app_le in F2 by (by eapply lookup_lt_Some).
        unfold settings in F2. rewrite zip_app_short in F2; [exact F2|].
        rewrite length_drop. lia.
Qed.

(** Whatever the list of parameters, the loop only appends to [models] and
    only allocates. *)
Lemma extend_models_allocates models model p :
  preserves only_allocates (extend_models models model p).
Proof.
  destruct p; simpl; preserves_steps; apply set_model_params_allocates.
Qed.

Lemma zip_loop_allocates mps : ∀ i models, preserves only_allocates (zip_loop i mps models).
Proof.
  induction mps as [|p mps IH]; intros i models; simpl; [preserves_steps|].
  destruct (models !! i); preserves_steps; [apply extend_models_allocates | apply IH].
Qed.

Lemma zip_loop_prefix mps : ∀ i models w w' out,
  zip_loop i mps models w = (w', inr out) → ∃ cs, out = models ++ cs.
Proof.
  induction mps as [|p mps IH]; intros i models w w' out; simpl.
  - intros [-> ->]%ret_inr. exists []. by rewrite app_nil_r.
  - destruct (models !! i) as [model|].
    2:{ intros [-> ->]%ret_inr. exists []. by rewrite app_nil_r. }
    intros (w1 & models' & He & H)%bind_inr.
    apply extend_models_inr in He as (news1 & -> & _).
    apply IH in H as (cs & ->). eexists. by rewrite <- app_assoc.
Qed.

Lemma settings_length mps : ∀ base,
  (length mps ≤ length base)%nat → length (settings base mps) = total_dicts mps.
Proof.
  unfold settings, total_dicts.
  induction mps as [|p mps IH]; intros [|b base] Hlen; simpl in *; try done; try lia.
  rewrite !length_app, length_fmap. f_equal. apply IH. lia.
Qed.

Lemma settings_nil base : settings base [] = [].
Proof. unfold settings. by destruct base. Qed.

Lemma allocated_at_seq {B} (Q : estimator → B → Prop) news : ∀ h ss,
  Forall2 Q news ss →
  Forall2 (λ c s, ∃ o, (h ++ news) !! c = Some o ∧ Q o s) (seq (length h) (length news)) ss.
Proof.
  induction news as [|o news IH]; intros h ss F.
  - apply Forall2_nil_inv_l in F as ->. constructor.
  - apply Forall2_cons_inv_l in F as (s & ss' & HQ & F & ->). simpl. constructor.
    + exists o. split; [|done]. by apply list_lookup_middle.
    + specialize (IH (h ++ [o]) ss' F).
      rewrite length_app, Nat.add_1_r, <- app_assoc in IH. exact IH.
Qed.

Lemma create_models_inr base mps w w' models :
  length mps = length base →
  create_models base (Some mps) w = (w', inr models) →
  ∃ copies,
    models = base ++ copies
    ∧ length copies = total_dicts mps
    ∧ length models = (length base + total_dicts mps)%nat
    ∧ Forall2 (λ c (s : loc * gmap string value),
                 ∃ b o, heap w' !! s.1 = Some b ∧ heap w' !! c = Some o
                        ∧ o = with_params s.2 b)
              copies (settings base mps).
Proof.
  intros Hlen H. unfold create_models in H.
  apply bind_inr in H as (w1 & models0 & Hc & H).
  apply defaults_comprehension_inr in Hc as (-> & _).
  destruct mps as [|p mps].
  - apply ret_inr in H as [-> ->]. exists []. rewrite app_nil_r, settings_nil.
    split_and!; [done | done | unfold total_dicts; simpl; lia | constructor].
  - apply zip_loop_inr in H as (news & -> & Hh & _ & F); [|simpl in *; lia].
    rewrite drop_0 in F.
    assert (Hn : length news = total_dicts (p :: mps)).
    { rewrite (Forall2_length _ _ _ F). apply settings_length. lia. }
    eexists. split_and!; [done | by rewrite length_seq | | ].
    + by rewrite length_app, length_seq, Hn.
    + rewrite Hh. eapply Forall2_impl; [by apply allocated_at_seq|].
      simpl. intros c s (o & Ho & b & Hb & ->). rewrite Hh in Hb. eauto.
Qed.

(** C8.  When [create_models] returns, every object of the caller's
    [base_models] holds [random_state = 42], and [n_jobs = -1] if it has an
    [n_jobs] parameter; the first [len(base_models)] elements of the
    returned list are the addresses of those very objects. *)
Theorem create_models_mutates_base_models base mp w w' models :
  create_models base mp w = (w', inr models) →
  Forall (λ l, ∃ o, heap w' !! l = Some o
                    ∧ params o !! "random_state" = Some (VInt 42)
                    ∧ ("n_jobs" ∈ dom (get_params o) →
                       params o !! "n_jobs" = Some (VInt (-1)))) base
  ∧ take (length base) models = base.
Proof.
  intros H. unfold create_models in H.
  apply bind_inr in H as (w1 & models0 & Hc & H).
  apply defaults_comprehension_inr in Hc as (-> & _ & _ & F & _).
  assert (Hk : only_allocates w1 w' ∧ ∃ cs, models = base ++ cs).
  { destruct mp as [[|p mps]|].
    - apply ret_inr in H as [-> ->]. split; [reflexivity|]. exists []. by rewrite app_nil_r.
    - split.
      + pose proof (zip_loop_allocates (p :: mps) 0%nat base w1) as Ha.
        by rewrite H in Ha.
      + by eapply zip_loop_prefix.
    - apply ret_inr in H as [-> ->]. split; [reflexivity|]. exists []. by rewrite app_nil_r. }
  destruct Hk as [Ha [cs ->]]. split.
  - eapply Forall_impl; [exact F|]. simpl. intros l (o & Ho & Hd1 & Hd2).
    exists o. split_and!; [by eapply only_allocates_lookup | done | done].
  - by rewrite take_app_length.
Qed.

(** *** When create_models returns *)

Lemma same_parameters_refl h : same_parameters h h.
Proof. intros l o Ho. eauto. Qed.

Lemma same_parameters_trans h1 h2 h3 :
  same_parameters h1 h2 → same_parameters h2 h3 → same_parameters h1 h3.
Proof.
  intros H12 H23 l o Ho. destruct (H12 l o Ho) as (o2 & Ho2 & Hd2).
  destruct (H23 l o2 Ho2) as (o3 & Ho3 & Hd3). exists o3. split; [done | congruence].
Qed.

Lemma set_defaults_run model o w :
  heap w !! model = Some o →
  "random_state" ∈ dom (get_params o) →
  ∃ w', set_defaults model w = (w', inr model) ∧ same_parameters (heap w) (heap w').
Proof.
  intros Ho Hrs. unfold set_defaults, set_params. rewrite bind_run. unfold read at 1.
  rewrite Ho. unfold get_params in *.
  assert (Hlt : (model < length (heap w))%nat) by (by eapply lookup_lt_Some).
  case_bool_decide as Hn; rewrite bind_run; unfold read; rewrite Ho.
  - rewrite bool_decide_true.
    2:{ rewrite dom_insert, dom_singleton. intros k [Hk|Hk]%elem_of_union;
        apply elem_of_singleton in Hk as ->; done. }
    simpl. eexists. split; [done|]. simpl. intros l o2 Hl.
    destruct (decide (l = model)) as [->|Hne].
    + eexists. split; [by apply list_lookup_insert_eq|]. simpl.
      rewrite dom_union_L, dom_insert_L, dom_singleton_L.
      assert (o2 = o) as -> by congruence. apply subseteq_union_1_L.
      intros k Hk. set_unfold. by destruct Hk as [->| ->].
    + exists o2. by rewrite list_lookup_insert_ne.
  - rewrite bool_decide_true.
    2:{ rewrite dom_singleton. by intros k ->%elem_of_singleton. }
    simpl. eexists. split; [done|]. simpl. intros l o2 Hl.
    destruct (decide (l = model)) as [->|Hne].
    + eexists. split; [by apply list_lookup_insert_eq|]. simpl.
      rewrite dom_union_L, dom_singleton_L.
      assert (o2 = o) as -> by congruence. apply subseteq_union_1_L.
      intros k Hk. set_unfold. by subst k.
    + exists o2. by rewrite list_lookup_insert_ne.
Qed.

Lemma defaults_comprehension_run base : ∀ w,
  Forall (λ l, ∃ o, heap w !! l = Some o ∧ "random_state" ∈ dom (get_params o)) base →
  ∃ w', comprehension set_defaults base w = (w', inr base)
        ∧ same_parameters (heap w) (heap w').
Proof.
  induction base as [|b base IH]; intros w F; simpl.
  - exists w. split; [done | apply same_parameters_refl].
  - apply Forall_cons in F as [(o & Ho & Hrs) F].
    destruct (set_defaults_run b o w Ho Hrs) as (w1 & H1 & S1).
    destruct (IH w1) as (w2 & H2 & S2).
    { eapply Forall_impl; [exact F|]. simpl. intros l (o2 & Ho2 & Hrs2).
      destruct (S1 l o2 Ho2) as (o3 & Ho3 & Hd3). exists o3. split; [done|].
      unfold get_params in *. by rewrite Hd3. }
    exists w2. rewrite bind_run, H1, bind_run, H2. split; [done|].
    by eapply same_parameters_trans.
Qed.

Lemma set_model_params_run model d o w :
  heap w !! model = Some o → accepts o d = true →
  set_model_params model d w
  = (World (heap w ++ [with_params d o]) (log w), inr (length (heap w))).
Proof.
  intros Ho Ha. unfold set_model_params, deepcopy, set_params.
  rewrite !bind_run. unfold read at 1. rewrite Ho.
  unfold alloc. rewrite !bind_run. unfold read. simpl.
  rewrite list_lookup_middle by done. unfold accepts in Ha. rewrite Ha. simpl.
  rewrite insert_app_r_alt by done. by rewrite Nat.sub_diag.
Qed.

Lemma for_each_copies_run model o ds : ∀ models w,
  heap w !! model = Some o → forallb (accepts o) ds = true →
  ∃ w' out news,
    for_each ds models
      (λ models param_dict, c <- set_model_params model param_dict ;; ret (models ++ [c])) w
    = (w', inr out)
    ∧ heap w' = heap w ++ news ∧ (∃ cs, out = models ++ cs).
Proof.
  induction ds as [|d ds IH]; intros models w Ho Ha; simpl in *.
  - exists w, models, []. rewrite app_nil_r. split_and!; [done..|]. exists []. by rewrite app_nil_r.
  - apply andb_prop in Ha as [Hd Ha].
    destruct (IH (models ++ [length (heap w)])
                 (World (heap w ++ [with_params d o]) (log w)))
      as (w' & out & news & H & Hh & cs & Hout); [by apply lookup_app_l_Some | done |].
    exists w', out, (with_params d o :: news).
    rewrite bind_run, bind_run, (set_model_params_run model d o w Ho Hd). simpl.
    split_and!; [done | rewrite Hh; simpl; by rewrite <- app_assoc |].
    eexists. by rewrite Hout, <- app_assoc.
Qed.

Lemma extend_models_run models model o p w :
  heap w !! model = Some o → forallb (accepts o) (dicts_of p) = true →
  (∀ v, p ≠ POther v) →
  ∃ w' out news,
    extend_models models model p w = (w', inr out)
    ∧ heap w' = heap w ++ news ∧ (∃ cs, out = models ++ cs).
Proof.
  intros Ho Ha Hp. destruct p as [d|ds|v]; simpl in *.
  - apply andb_prop in Ha as [Hd _].
    rewrite bind_run, (set_model_params_run model d o w Ho Hd). simpl.
    eexists _, _, [_]. split_and!; [done | done | by eexists].
  - by apply for_each_copies_run with o.
  - by destruct (Hp v).
Qed.

Lemma zip_loop_run mps : ∀ i models w,
  (∀ j p, mps !! j = Some p →
          ∃ l o, models !! (i + j)%nat = Some l ∧ heap w !! l = Some o
                 ∧ forallb (accepts o) (dicts_of p) = true ∧ ∀ v, p ≠ POther v) →
  ∃ w' out, zip_loop i mps models w = (w', inr out).
Proof.
  induction mps as [|p mps IH]; intros i models w Hall; simpl.
  - by exists w, models.
  - destruct (Hall 0%nat p eq_refl) as (l & o & Hl & Ho & Ha & Hp).
    rewrite Nat.add_0_r in Hl. rewrite Hl.
    destruct (extend_models_run models l o p w Ho Ha Hp)
      as (w1 & models' & news & He & Hh & cs & ->).
    rewrite bind_run, He. apply IH. intros j q Hq.
    destruct (Hall (S j) q Hq) as (l2 & o2 & Hl2 & Ho2 & Ha2 & Hp2).
    exists l2, o2. split_and!; [|by rewrite Hh; apply lookup_app_l_Some | done..].
    apply lookup_app_l_Some. by rewrite Nat.add_succ_comm.
Qed.

(** [create_models] returns whenever each base model has a [random_state]
    parameter and is matched with a dict, or a list of dicts, of parameters it
    has. *)
Lemma create_models_returns base mps w :
  Forall2 (λ l p, usable (heap w) l p = true) base mps →
  ∃ w' models, create_models base (Some mps) w = (w', inr models).
Proof.
  intros F. unfold create_models.
  destruct (defaults_comprehension_run base w) as (w1 & H1 & S1).
  { apply Forall_lookup. intros i l Hl.
    destruct (Forall2_lookup_l _ _ _ _ _ F Hl) as (p & _ & Hu). unfold usable in Hu.
    destruct (heap w !! l) as [o|]; [|done]. exists o. split; [done|].
    apply andb_prop in Hu as [[Hrs%bool_decide_eq_true _]%andb_prop _]. done. }
  rewrite bind_run, H1. destruct mps as [|p mps]; [by eexists _, _|].
  apply zip_loop_run. intros j q Hq. simpl.
  destruct (Forall2_lookup_r _ _ _ _ _ F Hq) as (l & Hl & Hu).
  unfold usable in Hu. destruct (heap w !! l) as [o|] eqn:Ho; [|done].
  apply andb_prop in Hu as [[_ Ha]%andb_prop Hp].
  destruct (S1 l o Ho) as (o1 & Ho1 & Hd1).
  exists l, o1. split_and!; [done | done | | by intros v ->].
  rewrite forallb_forall in Ha. apply forallb_forall. intros d Hd.
  specialize (Ha d Hd). unfold accepts, get_params in *.
  apply bool_decide_eq_true in Ha. apply bool_decide_eq_true. by rewrite Hd1.
Qed.

(** C1, as amended.  Let [model_params] match [base_models] in length.
    [create_models] returns whenever each base model has a [random_state]
    parameter and is matched with a dict, or a list of dicts, of parameters it
    has.  Whenever it returns, the returned list is the base models followed
    by one further model per parameter dictionary: its length is the number
    of base models plus the total number of dictionaries supplied, and each
    further model is a copy of the base model the dictionary was given for,
    with that dictionary's settings laid over the base model's parameters. *)
Theorem create_models_one_model_per_dict base mps w :
  length mps = length base →
  (Forall2 (λ l p, usable (heap w) l p = true) base mps →
   ∃ w' models, create_models base (Some mps) w = (w', inr models))
  ∧ ∀ w' models,
      create_models base (Some mps) w = (w', inr models) →
      ∃ copies,
        models = base ++ copies
        ∧ length copies = total_dicts mps
        ∧ length models = (length base + total_dicts mps)%nat
        ∧ Forall2 (λ c (s : loc * gmap string value),
                     ∃ b o, heap w' !! s.1 = Some b ∧ heap w' !! c = Some o
                            ∧ o = with_params s.2 b)
                  copies (settings base mps).
Proof.
  intros Hlen. split.
  - apply create_models_returns.
  - intros w' models. by apply create_models_inr.
Qed.

(** C1, as stated, fails: for one base model and one parameter dictionary
    the returned list has two models, the base model and the copy. *)
Lemma create_models_length_counterexample :
  (create_models [0%nat] (Some [PDict {["n_estimators" := VInt 5]}]) Sample.w0).2
    = inr [0%nat; 3%nat]
  ∧ length [0%nat; 3%nat] ≠ total_dicts [PDict {["n_estimators" := VInt 5]}].
Proof. split; [vm_compute; reflexivity | vm_compute; lia]. Qed.

Lemma create_models_one_model_per_dict_witness :
  ∃ w' models copies,
    create_models Sample.base_models (Some Sample.model_params) Sample.w0 = (w', inr models)
    ∧ models = Sample.base_models ++ copies
    ∧ length copies = total_dicts Sample.model_params
    ∧ length models = (length Sample.base_models + total_dicts Sample.model_params)%nat
    ∧ Forall2 (λ c (s : loc * gmap string value),
                 ∃ b o, heap w' !! s.1 = Some b ∧ heap w' !! c = Some o
                        ∧ o = with_params s.2 b)
              copies (settings Sample.base_models Sample.model_params).
Proof.
  destruct (create_models_one_model_per_dict Sample.base_models Sample.model_params
              Sample.w0 eq_refl) as [Hreturns Hmodels].
  destruct Hreturns as (w' & models & Hrun).
  { apply Forall2_cons; split; [vm_compute; reflexivity|].
    apply Forall2_cons; split; [vm_compute; reflexivity|]. by apply Forall2_nil. }
  destruct (Hmodels w' models Hrun) as (copies & H1 & H2 & H3 & H4).
  exists w', models, copies. split_and!; assumption.
Defined.

Lemma create_models_mutates_base_models_witness :
  Forall (λ l, ∃ o,
            heap (create_models Sample.base_models (Some Sample.model_params)
                    Sample.w0).1 !! l = Some o
            ∧ params o !! "random_state" = Some (VInt 42)
            ∧ ("n_jobs" ∈ dom (get_params o) → params o !! "n_jobs" = Some (VInt (-1))))
         Sample.base_models
  ∧ take (length Sample.base_models) [0; 1; 3; 4; 5]%nat = Sample.base_models.
Proof.
  apply (create_models_mutates_base_models Sample.base_models (Some Sample.model_params)
           Sample.w0).
  vm_compute. reflexivity.
Defined.

(** ** cv_scores *)

(** C5.  [cv_scores] passes on an error of [cross_validate]; otherwise it
    returns a dict with exactly the keys Model, Parameters, ROC_AUC and
    Time[s], where Model is the given [model_name], Parameters the given
    [model_params], and the other two are numbers. *)
Theorem cv_scores_record L p X y (model_name model_params : string) w :
  match cross_validate L p X y "roc_auc" CV_SCHEME (-1) with
  | inl e => cv_scores L p X y model_name model_params w = (w, inl (Propagated e))
  | inr _ =>
      ∃ d : gmap string cell,
        cv_scores L p X y model_name model_params w = (w, inr d)
        ∧ dom d = ({["Model"; "Parameters"; "ROC_AUC"; "Time[s]"]} : gset string)
        ∧ d !! "Model" = Some (CStr model_name)
        ∧ d !! "Parameters" = Some (CStr model_params)
        ∧ (∃ score, d !! "ROC_AUC" = Some (CNum score))
        ∧ (∃ time, d !! "Time[s]" = Some (CNum time))
  end.
Proof.
  unfold cv_scores. rewrite bind_run.
  destruct (cross_validate L p X y "roc_auc" CV_SCHEME (-1)) as [e|cv]; simpl; [done|].
  eexists. split; [reflexivity|]. split_and!.
  - rewrite !dom_insert_L, dom_singleton_L. set_solver.
  - by rewrite lookup_insert_eq.
  - rewrite lookup_insert_ne by done. by rewrite lookup_insert_eq.
  - eexists. do 2 (rewrite lookup_insert_ne by done). by rewrite lookup_insert_eq.
  - eexists. do 3 (rewrite lookup_insert_ne by done). by rewrite lookup_singleton_eq.
Qed.

(** ** create_results_dataframe, load_results_from_folder *)

Lemma load_loop_no_csv L folder_path columns_to_select names : ∀ results w,
  Forall (λ n, endswith n ".csv" = false) names →
  for_each names results
    (λ results file_name,
       if endswith file_name ".csv" then
         let file_path := os_path_join folder_path file_name in
         df <- lift (read_csv L file_path) ;;
         result_df <- lift (select_columns L df columns_to_select) ;;
         ret (results ++ [result_df])
       else ret results) w
  = (w, inr results).
Proof.
  induction names as [|n names IH]; intros results w F; simpl; [done|].
  apply Forall_cons in F as [Hn F]. rewrite bind_run, Hn. simpl. by apply IH.
Qed.

(** C9.  [create_results_dataframe] with no argument fails on the unassigned
    local [df]; so [load_results_from_folder] fails on every folder that
    [os.listdir] can list and that holds no file whose name ends in .csv. *)
Theorem create_results_dataframe_no_args_fails L folder_path columns_to_select names w :
  os_listdir L folder_path = inr names →
  Forall (λ n, endswith n ".csv" = false) names →
  create_results_dataframe [] w = (w, inl (UnboundLocalError "df"))
  ∧ load_results_from_folder L folder_path columns_to_select w
    = (w, inl (UnboundLocalError "df")).
Proof.
  intros Hls F. split; [done|].
  unfold load_results_from_folder. rewrite bind_run, Hls. simpl.
  rewrite bind_run, load_loop_no_csv by done. done.
Qed.

Lemma create_results_dataframe_no_args_fails_witness :
  create_results_dataframe [] Sample.w0 = (Sample.w0, inl (UnboundLocalError "df"))
  ∧ load_results_from_folder Sample.lib "empty" ["Model"; "ROC_AUC"; "Time[s]"] Sample.w0
    = (Sample.w0, inl (UnboundLocalError "df")).
Proof.
  apply (create_results_dataframe_no_args_fails Sample.lib "empty" _ ["notes.txt"]).
  - reflexivity.
  - repeat constructor.
Defined.

(** ** process_fold *)

Lemma process_fold_world L train_idx test_idx X y estimator w res :
  process_fold L train_idx test_idx X y estimator w = res →
  (res.1 = w ∧ ∀ r, res.2 ≠ inr r)
  ∨ ∃ o X_train y_train,
      heap w !! estimator = Some o
      ∧ res.1 = World (heap w ++ [(fit L o X_train y_train).1]) (log w).
Proof.
  intros H. unfold process_fold in H. rewrite bind_run in H.
  unfold iloc at 1 in H.
  destruct (mapM _ train_idx) as [X_train|]; simpl in H; [|left; by subst res].
  rewrite bind_run in H. unfold iloc at 1 in H.
  destruct (mapM _ test_idx) as [X_test|]; simpl in H; [|left; by subst res].
  rewrite bind_run in H. unfold iloc at 1 in H.
  destruct (mapM _ train_idx) as [y_train|]; simpl in H; [|left; by subst res].
  rewrite bind_run in H. unfold iloc at 1 in H.
  destruct (mapM _ test_idx) as [y_test|]; simpl in H; [|left; by subst res].
  rewrite bind_run in H. unfold deepcopy in H. rewrite bind_run in H.
  unfold read at 1 in H.
  destruct (heap w !! estimator) as [o|] eqn:Ho; simpl in H; [|left; by subst res].
  right. exists o, (Table (columns X) X_train), y_train. split; [done|].
  rewrite bind_run in H. unfold estimator_fit in H. rewrite !bind_run in H.
  unfold read at 1 in H. simpl in H.
  rewrite list_lookup_middle in H by done. simpl in H.
  rewrite bind_run in H. unfold write in H. simpl in H.
  rewrite insert_app_r_alt in H by done. rewrite Nat.sub_diag in H. simpl in H.
  destruct (fit L o (Table (columns X) X_train) y_train).2; simpl in H; [by subst res|].
  rewrite bind_run in H. unfold read in H. simpl in H.
  rewrite list_lookup_middle in H by done.
  rewrite bind_run in H.
  destruct (predict_proba L _ _) as [e|proba]; simpl in H; [by subst res|].
  rewrite bind_run in H. unfold column_1 in H.
  destruct (mapM _ proba); by subst res.
Qed.

(** C6.  Whatever [process_fold] is called with and however it ends, the
    object [estimator] refers to is as it was, and so is every object that
    existed before the call; the log is untouched.  When the call returns,
    the one object that [fit] has written to is a new one, the deep copy. *)
Theorem process_fold_leaves_estimator L train_idx test_idx X y estimator w :
  heap (process_fold L train_idx test_idx X y estimator w).1 !! estimator
    = heap w !! estimator
  ∧ take (length (heap w)) (heap (process_fold L train_idx test_idx X y estimator w).1)
    = heap w
  ∧ log (process_fold L train_idx test_idx X y estimator w).1 = log w
  ∧ match (process_fold L train_idx test_idx X y estimator w).2 with
    | inl _ => True
    | inr _ =>
        ∃ o X_train y_train,
          heap w !! estimator = Some o
          ∧ heap (process_fold L train_idx test_idx X y estimator w).1
            = heap w ++ [(fit L o X_train y_train).1]
    end.
Proof.
  destruct (process_fold_world L train_idx test_idx X y estimator w _ eq_refl)
    as [[Hw Hr] | (o & Xt & yt & Ho & Hw)].
  - rewrite Hw. split_and!; [done | by rewrite firstn_all | done |].
    destruct (process_fold L train_idx test_idx X y estimator w).2 eqn:E; [done|].
    by destruct (Hr p).
  - rewrite Hw. simpl. split_and!.
    + rewrite Ho. by apply lookup_app_l_Some.
    + by rewrite take_app_length.
    + done.
    + destruct (process_fold L train_idx test_idx X y estimator w).2; [done|]. eauto.
Qed.

(** ** save_result_data *)

Lemma bind_run_truth {B} obj (k : bool → M B) :
  bind (truth obj) k
  = λ w, match truth_value obj with
         | inl e => (w, inl (Propagated e))
         | inr b => k b w
         end.
Proof. unfold truth. by destruct (truth_value obj). Qed.

(** Closes one case of the wrapper: the world and the result are computed,
    the lists of events compared. *)
Ltac wrapper_case :=
  simpl; rewrite ?app_nil_r;
  split_and!;
  [ done
  | done || by rewrite <- app_assoc
  | (by intros ? [=]) || (by intros ? [= <-])
  | done ].

(** What the wrapper does once the decorated function has returned [rv]. *)
Lemma save_result_data_after_call L {A} (func : A → gmap string value → M pyobj)
    args kwargs w w1 rv :
  func args kwargs w = (w1, inr rv) →
  let r := save_result_data L func args kwargs w in
  let results := (unpack rv).1 in
  let extra := (unpack rv).2 in
  let path := kwargs_get kwargs "save_results_path" in
  let apath := kwargs_get kwargs "save_additional_results_path" in
  heap r.1 = heap w1
  ∧ log r.1 = log w1 ++ csv_step_events L path results
                     ++ (if csv_step_ok L path results
                         then dump_step_events L apath extra else [])
  ∧ (∀ v, r.2 = inr v → v = results)
  ∧ (csv_step_ok L path results && dump_step_ok L apath extra = true → r.2 = inr results).
Proof.
  intros Hf. simpl. unfold save_result_data. rewrite bind_run, Hf.
  unfold csv_step_events, csv_step_ok, dump_step_events, dump_step_ok.
  rewrite bind_run, bind_run_truth.
  destruct (truthy (kwargs_get kwargs "save_results_path")) eqn:Hp.
  - unfold results_to_csv.
    destruct ((unpack rv).1) as [|df|d|p|items] eqn:Hres; try wrapper_case.
    destruct (to_csv L df _) as [e|]; try wrapper_case.
    destruct (truth_value ((unpack rv).2)) as [e|[|]]; try wrapper_case.
    destruct (truthy (kwargs_get kwargs "save_additional_results_path")); try wrapper_case.
    unfold dump. destruct (joblib_dump L _ _); wrapper_case.
  - destruct (truth_value ((unpack rv).2)) as [e|[|]]; try wrapper_case.
    destruct (truthy (kwargs_get kwargs "save_additional_results_path")); try wrapper_case.
    unfold dump. destruct (joblib_dump L _ _); wrapper_case.
Qed.

Lemma elem_of_csv_step_events L path results e :
  e ∈ csv_step_events L path results →
  (e = Warn no_path_msg ∧ truthy path = false)
  ∨ (∃ df, e = ToCsv path df ∧ truthy path = true ∧ results = OFrame df
           ∧ to_csv L df path = None).
Proof.
  unfold csv_step_events. destruct (truthy path) eqn:Hp.
  - destruct results as [|df| | |]; try by intros ?%elem_of_nil.
    destruct (to_csv L df path) eqn:Hc; [by intros ?%elem_of_nil|].
    intros ->%list_elem_of_singleton. right. eauto.
  - intros ->%list_elem_of_singleton. by left.
Qed.

Lemma elem_of_dump_step_events L apath extra e :
  e ∈ dump_step_events L apath extra →
  e = Dump extra apath ∧ truth_value extra = inr true ∧ truthy apath = true
  ∧ joblib_dump L extra apath = None.
Proof.
  unfold dump_step_events.
  destruct (truth_value extra) as [|[|]]; try by intros ?%elem_of_nil.
  destruct (truthy apath); [|by intros ?%elem_of_nil].
  destruct (joblib_dump L extra apath); [by intros ?%elem_of_nil|].
  by intros ->%list_elem_of_singleton.
Qed.

Lemma save_result_data_events L {A} (func : A → gmap string value → M pyobj)
    args kwargs w w1 rv :
  func args kwargs w = (w1, inr rv) →
  events_since w1 (save_result_data L func args kwargs w).1
  = csv_step_events L (kwargs_get kwargs "save_results_path") (unpack rv).1
    ++ (if csv_step_ok L (kwargs_get kwargs "save_results_path") (unpack rv).1
        then dump_step_events L (kwargs_get kwargs "save_additional_results_path")
               (unpack rv).2
        else []).
Proof.
  intros Hf. destruct (save_result_data_after_call L func args kwargs w w1 rv Hf)
    as (_ & Hlog & _).
  unfold events_since. by rewrite Hlog, drop_app_length.
Qed.

(** C3, as amended.  Once the decorated function has returned, the wrapper
    emits a warning if and only if the keyword arguments hold no truthy
    [save_results_path] (none at all, [None], or an empty string); when they
    hold one, no warning is emitted and the primary DataFrame result is
    written to that path as CSV, unless [to_csv] itself raises. *)
Theorem save_result_data_warns_iff_no_path L {A} (func : A → gmap string value → M pyobj)
    args kwargs w w1 rv :
  func args kwargs w = (w1, inr rv) →
  ((∃ msg, Warn msg ∈ events_since w1 (save_result_data L func args kwargs w).1)
   ↔ truthy (kwargs_get kwargs "save_results_path") = false)
  ∧ (truthy (kwargs_get kwargs "save_results_path") = true →
     ∀ df, (unpack rv).1 = OFrame df →
           to_csv L df (kwargs_get kwargs "save_results_path") = None →
           ToCsv (kwargs_get kwargs "save_results_path") df
             ∈ events_since w1 (save_result_data L func args kwargs w).1).
Proof.
  intros Hf. rewrite (save_result_data_events L func args kwargs w w1 rv Hf).
  split; [split|].
  - intros [msg [Hin|Hin]%elem_of_app].
    + apply elem_of_csv_step_events in Hin as [[_ Hp]|(df & ? & _)]; done.
    + destruct (csv_step_ok L _ _); [|by apply elem_of_nil in Hin].
      by apply elem_of_dump_step_events in Hin as [? _].
  - intros Hp. exists no_path_msg. apply elem_of_app. left.
    unfold csv_step_events. rewrite Hp. by apply list_elem_of_singleton.
  - intros Hp df Hres Hcsv. apply elem_of_app. left.
    unfold csv_step_events. rewrite Hp, Hres, Hcsv. by apply list_elem_of_singleton.
Qed.

(** C10.  When the decorated function returns a pair of a DataFrame and
    additional data, the wrapper returns the DataFrame alone.  The additional
    data is dumped only if it is truthy and the keyword arguments hold a
    truthy [save_additional_results_path], and then to that path; it is
    dumped whenever both hold and neither [to_csv] nor [dump] raises.  An
    empty dict of additional results is never dumped, and raises nothing. *)
Theorem save_result_data_additional_results L {A}
    (func : A → gmap string value → M pyobj) args kwargs w w1 df extra :
  func args kwargs w = (w1, inr (OTuple [OFrame df; extra])) →
  (∀ v, (save_result_data L func args kwargs w).2 = inr v → v = OFrame df)
  ∧ (∀ obj p, Dump obj p ∈ events_since w1 (save_result_data L func args kwargs w).1 →
              obj = extra ∧ p = kwargs_get kwargs "save_additional_results_path"
              ∧ truth_value extra = inr true ∧ truthy p = true)
  ∧ (truth_value extra = inr true →
     truthy (kwargs_get kwargs "save_additional_results_path") = true →
     csv_step_ok L (kwargs_get kwargs "save_results_path") (OFrame df) = true →
     joblib_dump L extra (kwargs_get kwargs "save_additional_results_path") = None →
     Dump extra (kwargs_get kwargs "save_additional_results_path")
       ∈ events_since w1 (save_result_data L func args kwargs w).1)
  ∧ (extra = OScores ∅ →
     Forall (λ e, is_dump e = false)
            (events_since w1 (save_result_data L func args kwargs w).1)
     ∧ (csv_step_ok L (kwargs_get kwargs "save_results_path") (OFrame df) = true →
        (save_result_data L func args kwargs w).2 = inr (OFrame df))).
Proof.
  intros Hf.
  destruct (save_result_data_after_call L func args kwargs w w1 _ Hf)
    as (_ & _ & Hret & Hok).
  rewrite (save_result_data_events L func args kwargs w w1 _ Hf). simpl in *.
  split_and!.
  - exact Hret.
  - intros obj p [Hin|Hin]%elem_of_app.
    + by apply elem_of_csv_step_events in Hin as [[? _]|(? & ? & _)].
    + destruct (csv_step_ok L _ _); [|by apply elem_of_nil in Hin].
      apply elem_of_dump_step_events in Hin as ([= -> ->] & ? & ? & _). done.
  - intros Ht Hp Hcsv Hd. apply elem_of_app. right. rewrite Hcsv.
    unfold dump_step_events. rewrite Ht, Hp, Hd. by apply list_elem_of_singleton.
  - intros ->. split.
    + apply Forall_app. split.
      * apply Forall_forall. intros e Hin.
        by apply elem_of_csv_step_events in Hin as [[-> _]|(? & -> & _)].
      * destruct (csv_step_ok L _ _); [|constructor]. constructor.
    + intros Hcsv. apply Hok. by rewrite Hcsv.
Qed.

(** C3, as stated, fails: [imputation_test(X, y, models, preprocessors,
    "out.csv")] gives a path, by position; the wrapper looks only at the
    keyword arguments, warns, and writes nothing. *)
Lemma save_result_data_positional_path_counterexample :
  path_passed (ia_save_results_path Sample.positional_call) ∅ = true
  ∧ log (imputation_test Sample.lib Sample.positional_call ∅ Sample.w0).1
    = [Warn no_path_msg]
  ∧ ¬ ((∃ msg, Warn msg ∈ events_since Sample.w0
                  (imputation_test Sample.lib Sample.positional_call ∅ Sample.w0).1)
       ↔ path_passed (ia_save_results_path Sample.positional_call) ∅ = false).
Proof.
  assert (Hlog : log (imputation_test Sample.lib Sample.positional_call ∅ Sample.w0).1
                 = [Warn no_path_msg]) by (vm_compute; reflexivity).
  split_and!; [done | done |].
  intros [Hw _]. unfold events_since in Hw. rewrite Hlog in Hw. simpl in Hw.
  discriminate Hw. exists no_path_msg. by apply list_elem_of_singleton.
Qed.

Lemma save_result_data_warns_iff_no_path_witness :
  ((∃ msg, Warn msg ∈ events_since
              (imputation_test_func Sample.lib Sample.keyword_call Sample.keyword_path
                 Sample.w0).1
              (save_result_data Sample.lib (imputation_test_func Sample.lib)
                 Sample.keyword_call Sample.keyword_path Sample.w0).1)
   ↔ truthy (kwargs_get Sample.keyword_path "save_results_path") = false)
  ∧ (truthy (kwargs_get Sample.keyword_path "save_results_path") = true →
     ∀ df,
       (unpack (Sample.returned
                  (imputation_test_func Sample.lib Sample.keyword_call Sample.keyword_path
                     Sample.w0) ONone)).1 = OFrame df →
       to_csv Sample.lib df (kwargs_get Sample.keyword_path "save_results_path") = None →
       ToCsv (kwargs_get Sample.keyword_path "save_results_path") df
         ∈ events_since
             (imputation_test_func Sample.lib Sample.keyword_call Sample.keyword_path
                Sample.w0).1
             (save_result_data Sample.lib (imputation_test_func Sample.lib)
                Sample.keyword_call Sample.keyword_path Sample.w0).1).
Proof.
  apply (save_result_data_warns_iff_no_path Sample.lib (imputation_test_func Sample.lib)
           Sample.keyword_call Sample.keyword_path Sample.w0).
  vm_compute. reflexivity.
Defined.

Lemma save_result_data_additional_results_witness :
  (save_result_data Sample.lib (randomized_search_func Sample.lib) Sample.search_call
     Sample.search_kwargs Sample.w0).2 = inr (OFrame Sample.search_frame)
  ∧ Dump Sample.search_scores (VStr "scores.pkl")
      ∈ events_since Sample.search_run.1
          (save_result_data Sample.lib (randomized_search_func Sample.lib)
             Sample.search_call Sample.search_kwargs Sample.w0).1.
Proof.
  destruct (save_result_data_additional_results Sample.lib
              (randomized_search_func Sample.lib) Sample.search_call Sample.search_kwargs
              Sample.w0 Sample.search_run.1 Sample.search_frame Sample.search_scores)
    as (Hret & _ & Hdump & _).
  - vm_compute. reflexivity.
  - split.
    + vm_compute. reflexivity.
    + apply Hdump; vm_compute; reflexivity.
Defined.

(** ** imputation_test *)

Lemma model_info_world pts model w w' info :
  model_info pts model w = (w', inr info) → w' = w.
Proof.
  unfold model_info. intros (w1 & o & Ho & H)%bind_inr.
  apply read_inr in Ho as [-> _].
  apply bind_inr in H as (w2 & name & Hn & H).
  apply ret_inr in H as [-> _].
  destruct (String.eqb _ _); [|by apply ret_inr in Hn as [-> _]].
  destruct (params o !! "sampler"); [|discriminate].
  destruct (String.eqb _ _); by apply ret_inr in Hn as [-> _].
Qed.

Lemma prepare_models_info_length pts models : ∀ acc w w' out,
  for_each models acc
    (λ acc model,
       info <- model_info pts model ;;
       ret (acc.1 ++ [info.1], acc.2 ++ [info.2])) w = (w', inr out) →
  w' = w
  ∧ length out.1 = (length acc.1 + length models)%nat
  ∧ length out.2 = (length acc.2 + length models)%nat.
Proof.
  induction models as [|m models IH]; intros acc w w' out; simpl.
  - intros [-> ->]%ret_inr. split_and!; [done | lia | lia].
  - intros (w1 & acc1 & H1 & H)%bind_inr.
    apply bind_inr in H1 as (w2 & info & Hi & Hr).
    apply ret_inr in Hr as [-> ->].
    apply model_info_world in Hi as ->.
    apply IH in H as (-> & H1 & H2). simpl in *.
    rewrite length_app in H1, H2. simpl in *. split_and!; [done | lia | lia].
Qed.

Lemma imputation_step_length L X y num cat model name prm results entry w w' out :
  imputation_step L X y num cat model name prm results entry w = (w', inr out) →
  length out = (length results + (if scored name entry.1 then 1 else 0))%nat.
Proof.
  unfold imputation_step, scored.
  destruct (String.eqb entry.1 "none" && _); simpl.
  - intros [-> ->]%ret_inr. lia.
  - intros (w1 & o & _ & H)%bind_inr.
    apply bind_inr in H as (w2 & result & _ & H).
    apply ret_inr in H as [-> ->]. rewrite length_app. simpl. lia.
Qed.

Lemma imputation_inner_length L X y num cat model name prm preprocessors :
  ∀ results w w' out,
    for_each preprocessors results (imputation_step L X y num cat model name prm) w
      = (w', inr out) →
    length out
    = (length results
       + length (filter (λ e : string * transformer, scored name e.1 = true)
                        preprocessors))%nat.
Proof.
  induction preprocessors as [|e ps IH]; intros results w w' out; simpl.
  - intros [-> ->]%ret_inr. lia.
  - intros (w1 & acc & H1 & H)%bind_inr.
    apply imputation_step_length in H1. apply IH in H.
    rewrite filter_cons. destruct (decide (scored name e.1 = true)) as [Hs|Hs].
    + rewrite Hs in H1. simpl. lia.
    + apply not_true_is_false in Hs. rewrite Hs in H1. lia.
Qed.

Lemma imputation_outer_length L X y num cat preprocessors entries :
  ∀ results w w' out,
    for_each entries results
      (λ results (m : loc * (string * string)),
         for_each preprocessors results
           (imputation_step L X y num cat m.1 m.2.1 m.2.2)) w = (w', inr out) →
    length out = (length results + scored_pairs (entries.*2.*1) preprocessors)%nat.
Proof.
  unfold scored_pairs.
  induction entries as [|m entries IH]; intros results w w' out; simpl.
  - intros [-> ->]%ret_inr. lia.
  - intros (w1 & acc & H1 & H)%bind_inr.
    apply imputation_inner_length in H1. apply IH in H.
    rewrite H, H1, <- Nat.add_assoc. done.
Qed.

Lemma scored_all name (preprocessors : list (string * transformer)) :
  Forall (λ e, e.1 ≠ "none") preprocessors →
  length (filter (λ e : string * transformer, scored name e.1 = true) preprocessors)
  = length preprocessors.
Proof.
  induction 1 as [|e ps He F IH]; [done|].
  rewrite filter_cons. destruct (decide (scored name e.1 = true)) as [Hs|Hs].
  - simpl. by rewrite IH.
  - exfalso. apply Hs. unfold scored.
    destruct (String.eqb e.1 "none") eqn:E; [|done].
    by apply String.eqb_eq in E.
Qed.

Lemma scored_pairs_all names (preprocessors : list (string * transformer)) :
  Forall (λ e, e.1 ≠ "none") preprocessors →
  scored_pairs names preprocessors = (length names * length preprocessors)%nat.
Proof.
  intros F. unfold scored_pairs.
  induction names as [|n names IH]; [done|].
  rewrite fmap_cons. simpl. rewrite IH. by rewrite scored_all.
Qed.

(** C2, as amended.  When [imputation_test] returns, it returns a DataFrame
    with one row per pair of a model and a preprocessor that the loop does
    not skip; a pair is skipped when the imputer is named none and the
    model's name is not in HANDLE_MISSINGS_MODELS.  So the DataFrame has
    len(models) * len(preprocessors) rows when no imputer is named none. *)
Theorem imputation_test_rows L args kwargs w w' r :
  imputation_test L args kwargs w = (w', inr r) →
  ∃ df names params,
    (prepare_models_info (ia_models args) PARAMS_TO_SAVE w).2 = inr (names, params)
    ∧ length names = length (ia_models args)
    ∧ r = OFrame df
    ∧ length df = scored_pairs names (ia_preprocessors args)
    ∧ (Forall (λ e, e.1 ≠ "none") (ia_preprocessors args) →
       length df = (length (ia_models args) * length (ia_preprocessors args))%nat).
Proof.
  intros H. unfold imputation_test in H.
  destruct (imputation_test_func L args kwargs w) as [w1 [e|rv]] eqn:Hf.
  { unfold save_result_data in H. rewrite bind_run, Hf in H. discriminate. }
  destruct (save_result_data_after_call L _ args kwargs w w1 rv Hf) as (_ & _ & Hret & _).
  rewrite H in Hret. specialize (Hret r eq_refl). subst r.
  unfold imputation_test_func in Hf.
  destruct (negb _); [discriminate|]. destruct (_ && _); [discriminate|].
  unfold imputation_test_body in Hf.
  apply bind_inr in Hf as (w2 & [names params] & Hinfo & Hf).
  apply bind_inr in Hf as (w3 & results & Hloop & Hf).
  apply bind_inr in Hf as (w4 & df & Hdf & Hf).
  apply ret_inr in Hf as [-> ->]. apply ret_inr in Hdf as [-> ->].
  pose proof Hinfo as Hlen. unfold prepare_models_info in Hlen.
  apply prepare_models_info_length in Hlen as (-> & Hn & Hp). simpl in *.
  apply imputation_outer_length in Hloop. simpl in Hloop.
  rewrite snd_zip in Hloop by (rewrite length_zip; lia).
  rewrite fst_zip in Hloop by lia.
  exists results, names, params. split_and!; [by rewrite Hinfo | done | done | done |].
  intros F. rewrite Hloop, scored_pairs_all by done. by rewrite Hn.
Qed.

(** C2, as stated, fails: one model that does not handle missing values and
    one preprocessor named none give a DataFrame with no row, not one. *)
Lemma imputation_test_rows_counterexample :
  (imputation_test Sample.lib
     (ImputationArgs Sample.X Sample.y [0%nat] [("none", UserTransformer "passthrough")] None)
     ∅ Sample.w0).2 = inr (OFrame [])
  ∧ length ([] : frame)
    ≠ (length [0%nat] * length [("none", UserTransformer "passthrough")])%nat.
Proof. split; [vm_compute; reflexivity | simpl; lia]. Qed.

Lemma imputation_test_rows_witness :
  ∃ df names params,
    (prepare_models_info (ia_models Sample.keyword_call) PARAMS_TO_SAVE Sample.w0).2
      = inr (names, params)
    ∧ length names = length (ia_models Sample.keyword_call)
    ∧ Sample.returned (imputation_test Sample.lib Sample.keyword_call Sample.keyword_path
                         Sample.w0) ONone = OFrame df
    ∧ length df = scored_pairs names (ia_preprocessors Sample.keyword_call)
    ∧ (Forall (λ e, e.1 ≠ "none") (ia_preprocessors Sample.keyword_call) →
       length df = (length (ia_models Sample.keyword_call)
                    * length (ia_preprocessors Sample.keyword_call))%nat).
Proof.
  apply (imputation_test_rows Sample.lib Sample.keyword_call Sample.keyword_path Sample.w0
           (imputation_test Sample.lib Sample.keyword_call Sample.keyword_path Sample.w0).1).
  vm_compute. reflexivity.
Defined.

(** ** randomized_search *)

Lemma subscript_inr {A} (xs : list A) i w w' x :
  subscript xs i w = (w', inr x) → w' = w ∧ xs !! i = Some x.
Proof. unfold subscript. destruct (xs !! i); intros [= -> ?]; by subst. Qed.

Lemma first_selected_world arr idx w w' t :
  first_selected arr idx w = (w', inr t) → w' = w.
Proof.
  unfold first_selected. destruct (mapM _ idx) as [[|x sel]|]; intros [= -> ?]; done.
Qed.

Lemma dump_inr L obj path w w' u :
  dump L obj path w = (w', inr u) → w' = World (heap w) (log w ++ [Dump obj path]).
Proof. unfold dump. destruct (joblib_dump L obj path); intros [= <- ?]; done. Qed.

Lemma search_step_inr L args acc entry w w' acc' :
  search_step L (sa_X args) (sa_y args) (sa_preprocessors args) (sa_n_iter args)
    (sa_save_artifact_folder args) acc entry w = (w', inr acc') →
  ∃ o row e,
    heap w !! entry.1 = Some o
    ∧ acc'.1 = acc.1 ++ [row] ∧ ranking_row (class_name o) row
    ∧ heap w' = heap w ∧ log w' = log w ++ [e]
    ∧ artifact_of L args (heap w) entry e.
Proof.
  unfold search_step. intros H.
  apply bind_inr in H as (w1 & p0 & [-> H0]%subscript_inr & H).
  apply bind_inr in H as (w1 & p1 & [-> H1]%subscript_inr & H).
  apply bind_inr in H as (w1 & o & [-> Ho]%read_inr & H).
  apply bind_inr in H as (w1 & found & [-> Hfound]%lift_inr & H).
  apply bind_inr in H as (w1 & t & ->%first_selected_world & H).
  apply bind_inr in H as (w1 & u & ->%dump_inr & H).
  apply ret_inr in H as [-> ->]. simpl.
  eexists o, _, _. split_and!; [done | done | | done | done |].
  - split_and!.
    + rewrite !dom_insert_L, dom_singleton_L. set_solver.
    + by rewrite lookup_insert_eq.
    + eexists. rewrite lookup_insert_ne by done. by rewrite lookup_insert_eq.
    + eexists. do 2 (rewrite lookup_insert_ne by done). by rewrite lookup_singleton_eq.
  - exists o, p0, p1, found. done.
Qed.

Lemma search_loop_inr L args entries : ∀ acc w w' acc',
  for_each entries acc
    (search_step L (sa_X args) (sa_y args) (sa_preprocessors args) (sa_n_iter args)
       (sa_save_artifact_folder args)) w = (w', inr acc') →
  ∃ rows dumps,
    acc'.1 = acc.1 ++ rows ∧ heap w' = heap w ∧ log w' = log w ++ dumps
    ∧ Forall2 (λ row (entry : loc * gmap string (list value)),
                 ∃ o, heap w !! entry.1 = Some o ∧ ranking_row (class_name o) row)
              rows entries
    ∧ Forall2 (λ e entry, artifact_of L args (heap w) entry e) dumps entries.
Proof.
  induction entries as [|entry entries IH]; intros acc w w' acc'; simpl.
  - intros [-> ->]%ret_inr. exists [], []. rewrite !app_nil_r.
    split_and!; [done | done | done | constructor | constructor].
  - intros (w1 & acc1 & H1 & H)%bind_inr.
    apply search_step_inr in H1 as (o & row & e & Ho & Hacc & Hrow & Hh & Hl & Ha).
    apply IH in H as (rows & dumps & Hacc' & Hh' & Hl' & Frows & Fdumps).
    rewrite Hh in *.
    exists (row :: rows), (e :: dumps). split_and!.
    + by rewrite Hacc', Hacc, <- app_assoc.
    + done.
    + by rewrite Hl', Hl, <- app_assoc.
    + constructor; [eauto | done].
    + constructor; done.
Qed.

(** C7.  When [randomized_search] is given as many grids as models and
    returns, it returns a ranking DataFrame with one row per model, in order,
    each with exactly the fields Model, ROC_AUC and Time[s] and the model's
    class name as Model; and it has dumped one artifact per model, in order,
    the best estimator found for that model, at the path
    [os.path.join(save_artifact_folder, class name + ".pkl")].  The events
    that follow are those of the wrapper, none of them a model artifact. *)
Theorem randomized_search_artifacts L args kwargs w w' r :
  length (sa_grids args) = length (sa_models args) →
  randomized_search L args kwargs w = (w', inr r) →
  ∃ df dumps rest,
    r = OFrame df
    ∧ length df = length (sa_models args)
    ∧ Forall2 (λ row l, ∃ o, heap w !! l = Some o ∧ ranking_row (class_name o) row)
              df (sa_models args)
    ∧ events_since w w' = dumps ++ rest
    ∧ length dumps = length (sa_models args)
    ∧ Forall2 (λ e entry, artifact_of L args (heap w) entry e)
              dumps (zip (sa_models args) (sa_grids args))
    ∧ Forall (λ e, is_artifact_dump e = false) rest.
Proof.
  intros Hlen H. unfold randomized_search in H.
  destruct (randomized_search_func L args kwargs w) as [w1 [e|rv]] eqn:Hf.
  { unfold save_result_data in H. rewrite bind_run, Hf in H. discriminate. }
  destruct (save_result_data_after_call L _ args kwargs w w1 rv Hf) as (_ & Hlog & Hret & _).
  rewrite H in Hret, Hlog. specialize (Hret r eq_refl). subst r. simpl in Hlog.
  unfold randomized_search_func in Hf.
  destruct (negb _); [discriminate|]. destruct (_ <? _)%nat; [discriminate|].
  destruct (_ || _); [discriminate|].
  unfold randomized_search_body in Hf.
  apply bind_inr in Hf as (w2 & acc & Hloop & Hf).
  apply bind_inr in Hf as (w3 & df & [-> ->]%ret_inr & Hf).
  apply ret_inr in Hf as [-> ->].
  apply search_loop_inr in Hloop as (rows & dumps & Hacc & Hh & Hl & Frows & Fdumps).
  simpl in *. subst rows.
  assert (Hn : length dumps = length (sa_models args)).
  { rewrite (Forall2_length _ _ _ Fdumps), length_zip. lia. }
  eexists (acc.1), dumps, _. split_and!.
  - done.
  - transitivity (length (zip (sa_models args) (sa_grids args)));
      [exact (Forall2_length _ _ _ Frows) | rewrite length_zip; lia].
  - rewrite <- (fst_zip (sa_models args) (sa_grids args)) by lia.
    apply Forall2_fmap_r. exact Frows.
  - unfold events_since. rewrite Hlog, Hl, <- !app_assoc, drop_app_length. done.
  - done.
  - done.
  - apply Forall_app. split.
    + apply Forall_forall. intros e Hin.
      by apply elem_of_csv_step_events in Hin as [[-> _]|(? & -> & _)].
    + destruct (csv_step_ok L _ _); [|constructor].
      apply Forall_forall. intros e Hin.
      by apply elem_of_dump_step_events in Hin as [-> _].
Qed.

Lemma randomized_search_artifacts_witness :
  ∃ df dumps rest,
    Sample.returned (randomized_search Sample.lib Sample.search_call Sample.search_kwargs
                       Sample.w0) ONone = OFrame df
    ∧ length df = length (sa_models Sample.search_call)
    ∧ Forall2 (λ row l, ∃ o, heap Sample.w0 !! l = Some o ∧ ranking_row (class_name o) row)
              df (sa_models Sample.search_call)
    ∧ events_since Sample.w0
        (randomized_search Sample.lib Sample.search_call Sample.search_kwargs Sample.w0).1
      = dumps ++ rest
    ∧ length dumps = length (sa_models Sample.search_call)
    ∧ Forall2 (λ e entry, artifact_of Sample.lib Sample.search_call (heap Sample.w0) entry e)
              dumps (zip (sa_models Sample.search_call) (sa_grids Sample.search_call))
    ∧ Forall (λ e, is_artifact_dump e = false) rest.
Proof.
  apply (randomized_search_artifacts Sample.lib Sample.search_call Sample.search_kwargs
           Sample.w0).
  - reflexivity.
  - vm_compute. reflexivity.
Defined.

(** ** Where errors come from *)

Lemma raises_only_ret {A} E (a : A) : raises_only E (ret a).
Proof. by intros w. Qed.

Lemma raises_only_raise {A} (E : exn → Prop) e : E e → raises_only E (@raise A e).
Proof. by intros He w. Qed.

Lemma raises_only_lift {A} (E : exn → Prop) (r : lib_exn + A) :
  (∀ le, E (Propagated le)) → raises_only E (lift r).
Proof. intros He w. destruct r; simpl; [apply He | done]. Qed.

Lemma raises_only_read (E : exn → Prop) l : E InvalidReference → raises_only E (read l).
Proof. intros He w. unfold read. by destruct (heap w !! l). Qed.

Lemma raises_only_bind {A B} E (m : M A) (k : A → M B) :
  raises_only E m → (∀ a, raises_only E (k a)) → raises_only E (bind m k).
Proof.
  intros Hm Hk w. rewrite bind_run. specialize (Hm w).
  destruct (m w) as [w1 [e|a]]; simpl in *; [done | apply Hk].
Qed.

Lemma raises_only_for_each {A B} E (xs : list A) (body : B → A → M B) :
  (∀ acc x, raises_only E (body acc x)) → ∀ acc, raises_only E (for_each xs acc body).
Proof.
  intros Hb. induction xs as [|x xs IH]; intros acc; simpl.
  - apply raises_only_ret.
  - apply raises_only_bind; [apply Hb | intros; apply IH].
Qed.

Lemma raises_only_comprehension {A B} E (f : A → M B) (xs : list A) :
  (∀ x, raises_only E (f x)) → raises_only E (comprehension f xs).
Proof.
  intros Hf. induction xs as [|x xs IH]; simpl.
  - apply raises_only_ret.
  - apply raises_only_bind; [apply Hf | intros].
    apply raises_only_bind; [apply IH | intros; apply raises_only_ret].
Qed.



(** Peels the monadic structure of a [raises_only foreign] goal. *)
Ltac foreign_steps :=
  repeat first
    [ progress intros
    | match goal with
      | |- raises_only _ (ret _) => apply raises_only_ret
      | |- raises_only _ (raise _) => by apply raises_only_raise
      | |- raises_only _ (lift _) => by apply raises_only_lift
      | |- raises_only _ (read _) => by apply raises_only_read
      | |- raises_only _ (write _ _) => by intros ?
      | |- raises_only _ (alloc _) => by intros ?
      | |- raises_only _ (emit _) => by intros ?
      | |- raises_only _ (bind _ _) => apply raises_only_bind
      | |- raises_only _ (for_each _ _ _) => apply raises_only_for_each
      | |- raises_only _ (comprehension _ _) => apply raises_only_comprehension
      | |- raises_only _ (if ?b then _ else _) => destruct b
      | |- raises_only _ (match ?x with _ => _ end) => destruct x
      end ].

Lemma set_params_foreign model kw : raises_only foreign (set_params model kw).
Proof. unfold set_params. foreign_steps. Qed.


Lemma set_defaults_foreign model : raises_only foreign (set_defaults model).
Proof. unfold set_defaults. foreign_steps; apply set_params_foreign. Qed.
















(** * Further properties *)

#[local] Set Warnings "-clear-no-such-hyp".

Lemma bind_inl {A B} (m : M A) (k : A → M B) w w' e :
  bind m k w = (w', inl e) →
  m w = (w', inl e) ∨ ∃ w1 a, m w = (w1, inr a) ∧ k a w1 = (w', inl e).
Proof.
  rewrite bind_run. destruct (m w) as [w1 [e1|a]]; [left; congruence | right; eauto].
Qed.

(** ** set_model_params and create_models *)

(** X1.  [set_model_params] never changes an object that exists, the model
    it is given included, whether it returns or raises, and logs nothing.
    When it returns, it returns the address of a new object, other than
    [model], that holds the model's content with the dictionary's settings
    laid over its parameters. *)
Theorem set_model_params_leaves_model model d w :
  take (length (heap w)) (heap (set_model_params model d w).1) = heap w
  ∧ heap (set_model_params model d w).1 !! model = heap w !! model
  ∧ log (set_model_params model d w).1 = log w
  ∧ match (set_model_params model d w).2 with
    | inl _ => True
    | inr c =>
        ∃ o, heap w !! model = Some o
             ∧ (model < c)%nat
             ∧ heap (set_model_params model d w).1 !! c = Some (with_params d o)
    end.
Proof.
  destruct (set_model_params_allocates model d w) as [[news Hh] Hl].
  split_and!.
  - by rewrite Hh, take_app_length.
  - rewrite Hh. destruct (heap w !! model) as [o|] eqn:Ho.
    + by apply lookup_app_l_Some.
    + destruct (set_model_params model d w) as [w1 [e|c]] eqn:Hrun; simpl in *.
      * unfold set_model_params, deepcopy in Hrun. rewrite !bind_run in Hrun.
        unfold read in Hrun. rewrite Ho in Hrun. injection Hrun as <- _.
        rewrite <- (app_nil_r (heap w)) in Hh at 1.
        apply app_inv_head in Hh as <-. by rewrite app_nil_r.
      * apply set_model_params_inr in Hrun as (o & Ho' & _). congruence.
  - done.
  - destruct (set_model_params model d w) as [w1 [e|c]] eqn:Hrun; [done|]. simpl.
    apply set_model_params_inr in Hrun as (o & Ho & -> & ->). simpl.
    exists o. split_and!; [done | by eapply lookup_lt_Some | by apply list_lookup_middle].
Qed.

Lemma zip_loop_fresh mps : ∀ i models w w' out,
  zip_loop i mps models w = (w', inr out) →
  ∃ news, out = models ++ seq (length (heap w)) (length news)
          ∧ heap w' = heap w ++ news ∧ log w' = log w.
Proof.
  induction mps as [|p mps IH]; intros i models w w' out; simpl.
  - intros [-> ->]%ret_inr. exists []. simpl. by rewrite !app_nil_r.
  - destruct (models !! i) as [model|].
    2:{ intros [-> ->]%ret_inr. exists []. simpl. by rewrite !app_nil_r. }
    intros (w1 & models' & He & H)%bind_inr.
    apply extend_models_inr in He as (news1 & -> & Hh1 & Hl1 & _).
    apply IH in H as (news2 & -> & Hh2 & Hl2).
    exists (news1 ++ news2). split_and!.
    + rewrite Hh1, !length_app, seq_app, <- app_assoc. done.
    + by rewrite Hh2, Hh1, <- app_assoc.
    + congruence.
Qed.

Lemma create_models_fresh base mp w w' models :
  create_models base mp w = (w', inr models) →
  ∃ news : list estimator,
    models = base ++ seq (length (heap w)) (length news)
          ∧ length (heap w') = (length (heap w) + length news)%nat
          ∧ log w' = log w
          ∧ Forall (λ l, (l < length (heap w))%nat) base.
Proof.
  intros H. unfold create_models in H.
  apply bind_inr in H as (w1 & models0 & Hc & H).
  apply defaults_comprehension_inr in Hc as (-> & Hl1 & Hn1 & F & _).
  assert (Fb : Forall (λ l, (l < length (heap w))%nat) base).
  { eapply Forall_impl; [exact F|]. simpl. intros l (o & Ho & _).
    rewrite <- Hn1. by eapply lookup_lt_Some. }
  assert (Hk : ∃ news, models = base ++ seq (length (heap w1)) (length news)
                       ∧ heap w' = heap w1 ++ news ∧ log w' = log w1).
  { destruct mp as [[|p mps]|].
    - apply ret_inr in H as [-> ->]. exists []. simpl. by rewrite !app_nil_r.
    - by eapply zip_loop_fresh.
    - apply ret_inr in H as [-> ->]. exists []. simpl. by rewrite !app_nil_r. }
  destruct Hk as (news & -> & Hh & Hl). exists news.
  split_and!; [by rewrite Hn1 | by rewrite Hh, length_app, Hn1 | congruence | done].
Qed.

(** X2.  With [model_params] left out, or empty, [create_models] returns the
    base models and nothing else: the same addresses, in the same order, and
    no object is created.  The same holds with no base model at all, whatever
    [model_params] is: the loop over [zip(models, model_params)] has nothing
    to run on, and an element that is neither a dict nor a list goes
    unnoticed. *)
Theorem create_models_without_params base mp w w' models :
  mp = None ∨ mp = Some [] ∨ base = [] →
  create_models base mp w = (w', inr models) →
  models = base ∧ length (heap w') = length (heap w) ∧ log w' = log w.
Proof.
  intros Hmp H. unfold create_models in H.
  apply bind_inr in H as (w1 & models0 & Hc & H).
  apply defaults_comprehension_inr in Hc as (-> & Hl1 & Hn1 & _).
  destruct Hmp as [-> | [-> | ->]]; [by apply ret_inr in H as [-> ->]..|].
  destruct mp as [[|p mps]|]; by apply ret_inr in H as [-> ->].
Qed.

Lemma create_models_without_params_witness :
  [] = ([] : list loc)
  ∧ length (heap (create_models [] (Some [POther VNone]) Sample.w0).1)
    = length (heap Sample.w0)
  ∧ log (create_models [] (Some [POther VNone]) Sample.w0).1 = log Sample.w0.
Proof.
  apply (create_models_without_params [] (Some [POther VNone]) Sample.w0).
  - by right; right.
  - vm_compute. reflexivity.
Defined.

(** X3.  When [create_models] returns, the models after the base models are
    objects that the call has created: their addresses are new, no two are
    the same, none is a base model, and the call has created nothing else. *)
Theorem create_models_copies_are_new base mp w w' models :
  create_models base mp w = (w', inr models) →
  ∃ copies : list loc,
    models = base ++ copies
    ∧ NoDup copies
    ∧ Forall (λ c, (length (heap w) ≤ c < length (heap w'))%nat) copies
    ∧ Forall (λ l, (l < length (heap w))%nat) base
    ∧ length (heap w') = (length (heap w) + length copies)%nat.
Proof.
  intros H. apply create_models_fresh in H as (news & -> & Hn & _ & Fb).
  eexists. split_and!; [done | apply NoDup_seq | | done | by rewrite length_seq].
  apply Forall_forall. intros c Hc%elem_of_seq. lia.
Qed.

Lemma create_models_copies_are_new_witness :
  ∃ copies : list loc,
    [0; 1; 3; 4; 5]%nat = Sample.base_models ++ copies
    ∧ NoDup copies
    ∧ Forall (λ c, (length (heap Sample.w0) ≤ c
                    < length (heap (create_models Sample.base_models
                                      (Some Sample.model_params) Sample.w0).1))%nat)
             copies
    ∧ Forall (λ l, (l < length (heap Sample.w0))%nat) Sample.base_models
    ∧ length (heap (create_models Sample.base_models (Some Sample.model_params)
                      Sample.w0).1)
      = (length (heap Sample.w0) + length copies)%nat.
Proof.
  apply (create_models_copies_are_new Sample.base_models (Some Sample.model_params)
           Sample.w0).
  vm_compute. reflexivity.
Defined.

Lemma zip_loop_dicts ds : ∀ i models w w' out,
  zip_loop i (PDict <$> ds) models w = (w', inr out) →
  (i < length models)%nat →
  ∃ news : list estimator,
    out = models ++ seq (length (heap w)) (length ds)
    ∧ heap w' = heap w ++ news ∧ length news = length ds
    ∧ ∀ k d, ds !! k = Some d →
        ∃ l b, out !! (i + k)%nat = Some l ∧ heap w' !! l = Some b
               ∧ news !! k = Some (with_params d b).
Proof.
  induction ds as [|d ds IH]; intros i models w w' out; simpl.
  - intros [-> ->]%ret_inr _. exists []. simpl. rewrite !app_nil_r.
    split_and!; [done..|]. intros k d Hk. by rewrite lookup_nil in Hk.
  - intros H Hi. destruct (models !! i) as [model|] eqn:Hm.
    2:{ apply lookup_ge_None in Hm. lia. }
    apply bind_inr in H as (w1 & models' & He & H).
    apply bind_inr in He as (w2 & c & Hc & Hr).
    apply ret_inr in Hr as [-> ->].
    apply set_model_params_inr in Hc as (o & Ho & -> & ->).
    apply IH in H as (news & -> & Hh & Hn & Hall).
    2:{ rewrite length_app. simpl. lia. }
    simpl in *. exists (with_params d o :: news). split_and!.
    + rewrite length_app, Nat.add_1_r, <- app_assoc. done.
    + by rewrite Hh, <- app_assoc.
    + simpl. by rewrite Hn.
    + intros [|k] d' Hk; simpl in *.
      * injection Hk as <-. exists model, o. split_and!; [| |done].
        -- rewrite Nat.add_0_r, <- app_assoc. by apply lookup_app_l_Some.
        -- rewrite Hh. by do 2 apply lookup_app_l_Some.
      * destruct (Hall k d' Hk) as (l & b & Hl & Hb & Hk').
        exists l, b. split_and!; [|done..]. by rewrite Nat.add_succ_r.
Qed.

(** X4.  [zip(models, model_params)] runs over the list the loop is
    appending to, so it does not stop after [len(base_models)] elements.
    For any base models, at least one, and any list of dicts, however long,
    when [create_models] returns every dict has given one model; the model
    for the dict at position [k] is a copy, with that dict's settings, of
    the element at position [k] of the returned list.  Beyond the base
    models, that element is the copy made for an earlier dict. *)
Theorem create_models_longer_params base (ds : list (gmap string value)) w w' models :
  base ≠ [] →
  create_models base (Some (PDict <$> ds)) w = (w', inr models) →
  length models = (length base + length ds)%nat
  ∧ ∀ k d, ds !! k = Some d →
      ∃ l b c, models !! k = Some l ∧ heap w' !! l = Some b
               ∧ models !! (length base + k)%nat = Some c
               ∧ heap w' !! c = Some (with_params d b).
Proof.
  intros Hbase H. unfold create_models in H.
  apply bind_inr in H as (w1 & models0 & Hc & H).
  apply defaults_comprehension_inr in Hc as (-> & _).
  destruct ds as [|d0 ds].
  - apply ret_inr in H as [-> ->]. split; [simpl; lia|].
    intros k d Hk. by rewrite lookup_nil in Hk.
  - change (zip_loop 0 (PDict <$> (d0 :: ds)) base w1 = (w', inr models)) in H.
    apply zip_loop_dicts in H as (news & -> & Hh & Hn & Hall).
    2:{ destruct base; [done | simpl; lia]. }
    split; [by rewrite length_app, length_seq|].
    intros k d Hk. destruct (Hall k d Hk) as (l & b & Hl & Hb & Hk').
    exists l, b, (length (heap w1) + k)%nat. split_and!; [done | done | |].
    + rewrite lookup_app_r by lia.
      replace (length base + k - length base)%nat with k by lia.
      apply lookup_seq_lt. by eapply lookup_lt_Some.
    + rewrite Hh, lookup_app_r by lia.
      by replace (length (heap w1) + k - length (heap w1))%nat with k by lia.
Qed.

Lemma create_models_longer_params_witness :
  length [0; 3; 4]%nat = (length [0%nat] + length Cases.chained)%nat
  ∧ ∀ k d, Cases.chained !! k = Some d →
      ∃ l b c,
        [0; 3; 4]%nat !! k = Some l
        ∧ heap (create_models [0%nat] (Some (PDict <$> Cases.chained)) Sample.w0).1 !! l
          = Some b
        ∧ [0; 3; 4]%nat !! (length [0%nat] + k)%nat = Some c
        ∧ heap (create_models [0%nat] (Some (PDict <$> Cases.chained)) Sample.w0).1 !! c
          = Some (with_params d b).
Proof.
  apply (create_models_longer_params [0%nat] Cases.chained Sample.w0).
  - discriminate.
  - vm_compute. reflexivity.
Defined.

Lemma defaults_comprehension_foreign base :
  raises_only foreign (comprehension set_defaults base).
Proof. foreign_steps. apply set_defaults_foreign. Qed.

(** X5.  When [create_models] raises its ValueError, the base models have
    been changed all the same: each holds [random_state = 42], and
    [n_jobs = -1] if it has that parameter. *)
Theorem create_models_failure_keeps_defaults base mp w w' msg :
  create_models base mp w = (w', inl (ValueError msg)) →
  Forall (λ l, ∃ o, heap w' !! l = Some o
                    ∧ params o !! "random_state" = Some (VInt 42)
                    ∧ ("n_jobs" ∈ dom (get_params o) →
                       params o !! "n_jobs" = Some (VInt (-1)))) base.
Proof.
  intros H. unfold create_models in H.
  apply bind_inl in H as [H | (w1 & models0 & Hc & H)].
  { pose proof (defaults_comprehension_foreign base w) as Hf. by rewrite H in Hf. }
  apply defaults_comprehension_inr in Hc as (-> & _ & _ & F & _).
  destruct mp as [[|p mps]|]; [discriminate | | discriminate].
  pose proof (zip_loop_allocates (p :: mps) 0%nat base w1) as Ha. rewrite H in Ha.
  eapply Forall_impl; [exact F|]. simpl. intros l (o & Ho & Hd1 & Hd2).
  exists o. split_and!; [by eapply only_allocates_lookup | done | done].
Qed.

Lemma create_models_failure_keeps_defaults_witness :
  Forall (λ l, ∃ o,
            heap (create_models [0%nat] (Some [POther VNone]) Sample.w0).1 !! l = Some o
            ∧ params o !! "random_state" = Some (VInt 42)
            ∧ ("n_jobs" ∈ dom (get_params o) → params o !! "n_jobs" = Some (VInt (-1))))
         [0%nat].
Proof.
  apply (create_models_failure_keeps_defaults [0%nat] (Some [POther VNone]) Sample.w0 _
           invalid_format_msg).
  vm_compute. reflexivity.
Defined.

(** ** save_result_data *)

(** When the decorated function raises, so does the wrapper, in the same world. *)
Lemma wrapper_passes_on L {A} (func : A → gmap string value → M pyobj)
    args kwargs w w1 e :
  func args kwargs w = (w1, inl e) →
  save_result_data L func args kwargs w = (w1, inl e).
Proof. intros Hf. unfold save_result_data. by rewrite bind_run, Hf. Qed.

(** X6.  When [save_results_path] is given by keyword and the CSV cannot be
    written, because [to_csv] raises or because the result is no DataFrame,
    the wrapper raises that error, or an AttributeError, at once: it logs
    nothing, and the additional results are not dumped, whatever path was
    given for them. *)
Theorem save_result_data_csv_failure L {A} (func : A → gmap string value → M pyobj)
    args kwargs w w1 rv :
  func args kwargs w = (w1, inr rv) →
  truthy (kwargs_get kwargs "save_results_path") = true →
  (∀ df, (unpack rv).1 = OFrame df →
         to_csv L df (kwargs_get kwargs "save_results_path") ≠ None) →
  (save_result_data L func args kwargs w).1 = w1
  ∧ ∃ e, (save_result_data L func args kwargs w).2 = inl e
         ∧ (e = AttributeError "to_csv"
            ∨ ∃ df le, (unpack rv).1 = OFrame df
                       ∧ to_csv L df (kwargs_get kwargs "save_results_path") = Some le
                       ∧ e = Propagated le).
Proof.
  intros Hf Hp Hcsv. unfold save_result_data. rewrite bind_run, Hf, bind_run, Hp.
  unfold results_to_csv.
  destruct ((unpack rv).1) as [|df|d|p|items] eqn:Hres; simpl; eauto.
  specialize (Hcsv df eq_refl).
  destruct (to_csv L df _) as [le|] eqn:Hc; [|done]. simpl.
  split; [done|]. eexists. split; [done|]. right. eauto.
Qed.

Lemma save_result_data_csv_failure_witness :
  (save_result_data Cases.folder_lib (randomized_search_func Cases.folder_lib)
     Sample.search_call
     (<["save_results_path" := VStr "ranking.csv"]>
        {["save_additional_results_path" := VStr "scores.pkl"]}) Sample.w0).1
  = (randomized_search_func Cases.folder_lib Sample.search_call
       (<["save_results_path" := VStr "ranking.csv"]>
          {["save_additional_results_path" := VStr "scores.pkl"]}) Sample.w0).1.
Proof.
  apply (save_result_data_csv_failure Cases.folder_lib
           (randomized_search_func Cases.folder_lib) Sample.search_call
           (<["save_results_path" := VStr "ranking.csv"]>
              {["save_additional_results_path" := VStr "scores.pkl"]}) Sample.w0 _
           (Sample.returned
              (randomized_search_func Cases.folder_lib Sample.search_call
                 (<["save_results_path" := VStr "ranking.csv"]>
                    {["save_additional_results_path" := VStr "scores.pkl"]}) Sample.w0)
              ONone)).
  - vm_compute. reflexivity.
  - vm_compute. reflexivity.
  - intros df _. discriminate.
Defined.

(** X7.  Only a tuple of exactly two elements is taken apart.  Anything else
    the decorated function returns, a tuple of three for one, is the result
    as a whole: the wrapper returns it as it is and never dumps any of it. *)
Theorem save_result_data_other_returns L {A} (func : A → gmap string value → M pyobj)
    args kwargs w w1 rv :
  func args kwargs w = (w1, inr rv) →
  (∀ a b, rv ≠ OTuple [a; b]) →
  (∀ v, (save_result_data L func args kwargs w).2 = inr v → v = rv)
  ∧ Forall (λ e, is_dump e = false)
           (events_since w1 (save_result_data L func args kwargs w).1).
Proof.
  intros Hf Hrv.
  assert (Hu : unpack rv = (rv, ONone)).
  { destruct rv as [| | | |[|a [|b [|c items]]]]; try done. by destruct (Hrv a b). }
  destruct (save_result_data_after_call L func args kwargs w w1 rv Hf) as (_ & _ & Hret & _).
  rewrite (save_result_data_events L func args kwargs w w1 rv Hf), Hu in *. simpl in *.
  split; [exact Hret|].
  apply Forall_app. split.
  - apply Forall_forall. intros e Hin.
    by apply elem_of_csv_step_events in Hin as [[-> _]|(? & -> & _)].
  - destruct (csv_step_ok L _ _); constructor.
Qed.

Lemma save_result_data_other_returns_witness :
  (∀ v, (save_result_data Sample.lib (λ (_ : unit) _, ret (OTuple [ONone; ONone; ONone]))
           tt ∅ Sample.w0).2 = inr v → v = OTuple [ONone; ONone; ONone])
  ∧ Forall (λ e, is_dump e = false)
           (events_since Sample.w0
              (save_result_data Sample.lib
                 (λ (_ : unit) _, ret (OTuple [ONone; ONone; ONone])) tt ∅ Sample.w0).1).
Proof.
  apply (save_result_data_other_returns Sample.lib
           (λ (_ : unit) _, ret (OTuple [ONone; ONone; ONone])) tt ∅ Sample.w0 Sample.w0).
  - reflexivity.
  - intros a b. discriminate.
Defined.

(** ** imputation_test and cat_encoding_test *)

Lemma cv_scores_inr L p X y (model_name model_params : string) w w' (d : record) :
  cv_scores L p X y model_name model_params w = (w', inr d) →
  w' = w
  ∧ dom d = ({["Model"; "Parameters"; "ROC_AUC"; "Time[s]"]} : gset string)
  ∧ d !! "Model" = Some (CStr model_name).
Proof.
  unfold cv_scores. intros (w1 & cv & [-> _]%lift_inr & H)%bind_inr.
  apply ret_inr in H as [-> ->]. split_and!; [done | | by rewrite lookup_insert_eq].
  rewrite !dom_insert_L, dom_singleton_L. set_solver.
Qed.

Lemma imputation_step_keeps_rows L X y num cat model name prm results entry w w' out :
  imputation_step L X y num cat model name prm results entry w = (w', inr out) →
  Forall imputation_row results → Forall imputation_row out.
Proof.
  unfold imputation_step. intros H F.
  destruct (String.eqb entry.1 "none" && _) eqn:Hskip.
  - by apply ret_inr in H as [-> ->].
  - apply bind_inr in H as (w1 & o & _ & H).
    apply bind_inr in H as (w2 & d & (-> & Hdom & Hmodel)%cv_scores_inr & H).
    apply ret_inr in H as [-> ->]. apply Forall_app. split; [done|].
    constructor; [|constructor]. split.
    + rewrite dom_insert_L, Hdom. set_solver.
    + exists name, entry.1. split_and!.
      * by rewrite lookup_insert_ne.
      * by rewrite lookup_insert_eq.
      * intros Hnone. rewrite Hnone in Hskip. simpl in Hskip.
        apply negb_false_iff in Hskip. by apply bool_decide_eq_true in Hskip.
Qed.

Lemma imputation_inner_rows L X y num cat model name prm preprocessors :
  ∀ results w w' out,
    for_each preprocessors results (imputation_step L X y num cat model name prm) w
      = (w', inr out) →
    Forall imputation_row results → Forall imputation_row out.
Proof.
  induction preprocessors as [|e ps IH]; intros results w w' out; simpl.
  - by intros [-> ->]%ret_inr.
  - intros (w1 & acc & H1 & H)%bind_inr F.
    eapply IH; [exact H|]. by eapply imputation_step_keeps_rows.
Qed.

Lemma imputation_outer_rows L X y num cat preprocessors entries :
  ∀ results w w' out,
    for_each entries results
      (λ results (m : loc * (string * string)),
         for_each preprocessors results
           (imputation_step L X y num cat m.1 m.2.1 m.2.2)) w = (w', inr out) →
    Forall imputation_row results → Forall imputation_row out.
Proof.
  induction entries as [|m entries IH]; intros results w w' out; simpl.
  - by intros [-> ->]%ret_inr.
  - intros (w1 & acc & H1 & H)%bind_inr F.
    eapply IH; [exact H|]. by eapply imputation_inner_rows.
Qed.

(** X8.  Every row of the DataFrame that [imputation_test] returns has
    exactly the fields Model, Parameters, ROC_AUC, Time[s] and Imputation,
    and no row pairs the imputer none with a model whose name is not in
    HANDLE_MISSINGS_MODELS. *)
Theorem imputation_test_rows_are_scored L args kwargs w w' r :
  imputation_test L args kwargs w = (w', inr r) →
  ∃ df, r = OFrame df ∧ Forall imputation_row df.
Proof.
  intros H. unfold imputation_test in H.
  destruct (imputation_test_func L args kwargs w) as [w1 [e|rv]] eqn:Hf.
  { unfold save_result_data in H. rewrite bind_run, Hf in H. discriminate. }
  destruct (save_result_data_after_call L _ args kwargs w w1 rv Hf) as (_ & _ & Hret & _).
  rewrite H in Hret. specialize (Hret r eq_refl). subst r.
  unfold imputation_test_func in Hf.
  destruct (negb _); [discriminate|]. destruct (_ && _); [discriminate|].
  unfold imputation_test_body in Hf.
  apply bind_inr in Hf as (w2 & info & _ & Hf).
  apply bind_inr in Hf as (w3 & results & Hloop & Hf).
  apply bind_inr in Hf as (w4 & df & [-> ->]%ret_inr & Hf).
  apply ret_inr in Hf as [-> ->]. exists results. split; [done|].
  eapply imputation_outer_rows; [exact Hloop | constructor].
Qed.

Lemma imputation_test_rows_are_scored_witness :
  ∃ df,
    Sample.returned
      (imputation_test Sample.lib
         (ImputationArgs Sample.X Sample.y [0; 2]%nat Sample.preprocessors None) ∅ Sample.w0)
      ONone = OFrame df
    ∧ Forall imputation_row df.
Proof.
  apply (imputation_test_rows_are_scored Sample.lib
           (ImputationArgs Sample.X Sample.y [0; 2]%nat Sample.preprocessors None) ∅
           Sample.w0
           (imputation_test Sample.lib
              (ImputationArgs Sample.X Sample.y [0; 2]%nat Sample.preprocessors None) ∅
              Sample.w0).1).
  vm_compute. reflexivity.
Defined.

(** *** cat_encoding_test *)

Lemma cat_encoding_step_inr L X y num cat model name prm results entry w w' out :
  cat_encoding_step L X y num cat model name prm results entry w = (w', inr out) →
  ∃ row, out = results ++ [row] ∧ encoding_row name entry.1 row.
Proof.
  unfold cat_encoding_step. intros H.
  apply bind_inr in H as (w1 & o & _ & H).
  apply bind_inr in H as (w2 & d & (-> & Hdom & Hmodel)%cv_scores_inr & H).
  apply ret_inr in H as [-> ->]. eexists. split; [done|]. split_and!.
  - rewrite dom_insert_L, Hdom. set_solver.
  - by rewrite lookup_insert_ne.
  - by rewrite lookup_insert_eq.
Qed.

Lemma cat_encoding_inner_inr L X y num cat model name prm
    (preprocessors : list (string * transformer)) :
  ∀ results w w' out,
    for_each preprocessors results (cat_encoding_step L X y num cat model name prm) w
      = (w', inr out) →
    ∃ rows, out = results ++ rows
            ∧ Forall2 (λ row (ne : string * string), encoding_row ne.1 ne.2 row)
                      rows ((λ e : string * transformer, (name, e.1)) <$> preprocessors).
Proof.
  induction preprocessors as [|e ps IH]; intros results w w' out; simpl.
  - intros [-> ->]%ret_inr. exists []. by rewrite app_nil_r.
  - intros (w1 & acc & H1 & H)%bind_inr.
    apply cat_encoding_step_inr in H1 as (row & -> & Hrow).
    apply IH in H as (rows & -> & F). exists (row :: rows).
    split; [by rewrite <- app_assoc | by constructor].
Qed.

Lemma cat_encoding_outer_inr L X y num cat (preprocessors : list (string * transformer))
    entries :
  ∀ results w w' out,
    for_each entries results
      (λ results (m : loc * (string * string)),
         for_each preprocessors results
           (cat_encoding_step L X y num cat m.1 m.2.1 m.2.2)) w = (w', inr out) →
    ∃ rows, out = results ++ rows
            ∧ Forall2 (λ row (ne : string * string), encoding_row ne.1 ne.2 row)
                      rows
                      (flat_map (λ name, (λ e : string * transformer, (name, e.1))
                                           <$> preprocessors)
                                (entries.*2.*1)).
Proof.
  induction entries as [|m entries IH]; intros results w w' out; simpl.
  - intros [-> ->]%ret_inr. exists []. by rewrite app_nil_r.
  - intros (w1 & acc & H1 & H)%bind_inr.
    apply cat_encoding_inner_inr in H1 as (rows1 & -> & F1).
    apply IH in H as (rows2 & -> & F2). exists (rows1 ++ rows2).
    split; [by rewrite <- app_assoc | by apply Forall2_app].
Qed.

Lemma length_flat_map_const {A B} (f : A → list B) (xs : list A) n :
  (∀ x, length (f x) = n) → length (flat_map f xs) = (length xs * n)%nat.
Proof.
  intros Hf. induction xs as [|x xs IH]; simpl; [done|].
  by rewrite length_app, Hf, IH.
Qed.

(** X9.  [cat_encoding_test] skips no pair.  When it returns, it returns a
    DataFrame with len(models) * len(preprocessors) rows, one for each model
    and each encoder, model by model and, for one model, in the order of the
    preprocessors; the row has the four fields of [cv_scores] and Encoder,
    with the model's name as Model and the encoder's name as Encoder. *)
Theorem cat_encoding_test_rows L args kwargs w w' r :
  cat_encoding_test L args kwargs w = (w', inr r) →
  ∃ df names params,
    (prepare_models_info (ia_models args) PARAMS_TO_SAVE w).2 = inr (names, params)
    ∧ length names = length (ia_models args)
    ∧ r = OFrame df
    ∧ length df = (length (ia_models args) * length (ia_preprocessors args))%nat
    ∧ Forall2 (λ row (ne : string * string), encoding_row ne.1 ne.2 row)
              df
              (flat_map (λ name, (λ e : string * transformer, (name, e.1))
                                   <$> ia_preprocessors args)
                        names).
Proof.
  intros H. unfold cat_encoding_test in H.
  destruct (cat_encoding_test_func L args kwargs w) as [w1 [e|rv]] eqn:Hf.
  { unfold save_result_data in H. rewrite bind_run, Hf in H. discriminate. }
  destruct (save_result_data_after_call L _ args kwargs w w1 rv Hf) as (_ & _ & Hret & _).
  rewrite H in Hret. specialize (Hret r eq_refl). subst r.
  unfold cat_encoding_test_func in Hf.
  destruct (negb _); [discriminate|]. destruct (_ && _); [discriminate|].
  unfold cat_encoding_test_body in Hf.
  apply bind_inr in Hf as (w2 & [names params] & Hinfo & Hf).
  apply bind_inr in Hf as (w3 & results & Hloop & Hf).
  apply bind_inr in Hf as (w4 & df & [-> ->]%ret_inr & Hf).
  apply ret_inr in Hf as [-> ->].
  pose proof Hinfo as Hlen. unfold prepare_models_info in Hlen.
  apply prepare_models_info_length in Hlen as (-> & Hn & Hp). simpl in *.
  apply cat_encoding_outer_inr in Hloop as (rows & -> & F). simpl in *.
  rewrite snd_zip in F by (rewrite length_zip; lia).
  rewrite fst_zip in F by lia.
  exists rows, names, params. split_and!; [by rewrite Hinfo | done | done | | done].
  rewrite (Forall2_length _ _ _ F), <- Hn.
  apply length_flat_map_const. intros name. by rewrite length_fmap.
Qed.

Lemma cat_encoding_test_rows_witness :
  ∃ df names params,
    (prepare_models_info (ia_models Sample.keyword_call) PARAMS_TO_SAVE Sample.w0).2
      = inr (names, params)
    ∧ length names = length (ia_models Sample.keyword_call)
    ∧ Sample.returned (cat_encoding_test Sample.lib Sample.keyword_call Sample.keyword_path
                         Sample.w0) ONone = OFrame df
    ∧ length df = (length (ia_models Sample.keyword_call)
                   * length (ia_preprocessors Sample.keyword_call))%nat
    ∧ Forall2 (λ row (ne : string * string), encoding_row ne.1 ne.2 row)
              df
              (flat_map (λ name, (λ e : string * transformer, (name, e.1))
                                   <$> ia_preprocessors Sample.keyword_call)
                        names).
Proof.
  apply (cat_encoding_test_rows Sample.lib Sample.keyword_call Sample.keyword_path Sample.w0
           (cat_encoding_test Sample.lib Sample.keyword_call Sample.keyword_path
              Sample.w0).1).
  vm_compute. reflexivity.
Defined.

(** ** randomized_search *)

Lemma search_step_scores L args acc entry w w' acc' :
  search_step L (sa_X args) (sa_y args) (sa_preprocessors args) (sa_n_iter args)
    (sa_save_artifact_folder args) acc entry w = (w', inr acc') →
  ∃ o row scores e,
    heap w !! entry.1 = Some o ∧ heap w' = heap w
    ∧ acc'.1 = acc.1 ++ [row]
    ∧ acc'.2 = <[class_name o := scores]> acc.2
    ∧ log w' = log w ++ [e] ∧ is_artifact_dump e = true.
Proof.
  unfold search_step. intros H.
  apply bind_inr in H as (w1 & p0 & [-> H0]%subscript_inr & H).
  apply bind_inr in H as (w1 & p1 & [-> H1]%subscript_inr & H).
  apply bind_inr in H as (w1 & o & [-> Ho]%read_inr & H).
  apply bind_inr in H as (w1 & found & [-> Hfound]%lift_inr & H).
  apply bind_inr in H as (w1 & t & ->%first_selected_world & H).
  apply bind_inr in H as (w1 & u & ->%dump_inr & H).
  apply ret_inr in H as [-> ->]. simpl.
  eexists o, _, _, _. split_and!; done.
Qed.

Lemma search_loop_scores L args entries : ∀ acc w w' acc',
  for_each entries acc
    (search_step L (sa_X args) (sa_y args) (sa_preprocessors args) (sa_n_iter args)
       (sa_save_artifact_folder args)) w = (w', inr acc') →
  ∃ (rows : frame) (classes : list string) (dumps : list event),
    acc'.1 = acc.1 ++ rows ∧ length rows = length entries
    ∧ Forall2 (λ (entry : loc * gmap string (list value)) class,
                 ∃ o, heap w !! entry.1 = Some o ∧ class = class_name o)
              entries classes
    ∧ dom acc'.2 = dom acc.2 ∪ list_to_set classes
    ∧ heap w' = heap w
    ∧ log w' = log w ++ dumps ∧ length dumps = length entries
    ∧ Forall (λ e, is_artifact_dump e = true) dumps.
Proof.
  induction entries as [|entry entries IH]; intros acc w w' acc'; simpl.
  - intros [-> ->]%ret_inr. exists [], [], []. rewrite !app_nil_r.
    split_and!; try done; try constructor; set_solver.
  - intros (w1 & acc1 & H1 & H)%bind_inr.
    apply search_step_scores in H1 as (o & row & scores & e & Ho & Hh & Hr & Hs & Hl & He).
    apply IH in H as (rows & classes & dumps & Hr' & Hn & F & Hd & Hh' & Hl' & Hn' & Fd).
    rewrite Hh in *.
    exists (row :: rows), (class_name o :: classes), (e :: dumps). split_and!.
    + by rewrite Hr', Hr, <- app_assoc.
    + simpl. by rewrite Hn.
    + constructor; [eauto | done].
    + rewrite Hd, Hs, dom_insert_L. simpl. set_solver.
    + done.
    + by rewrite Hl', Hl, <- app_assoc.
    + simpl. by rewrite Hn'.
    + by constructor.
Qed.

Lemma size_list_to_set_le (classes : list string) :
  (size (list_to_set classes : gset string) ≤ length classes)%nat.
Proof.
  induction classes as [|c classes IH].
  - rewrite list_to_set_nil, size_empty. done.
  - rewrite list_to_set_cons. simpl.
    destruct (decide (c ∈ (list_to_set classes : gset string))) as [Hin|Hnin].
    + replace ({[c]} ∪ list_to_set classes) with (list_to_set classes : gset string);
        [lia|]. apply leibniz_equiv. intros x. rewrite elem_of_union, elem_of_singleton.
      split; [tauto | intros [->|]; done].
    + rewrite size_union, size_singleton; [lia|].
      intros x ->%elem_of_singleton. done.
Qed.

Lemma randomized_search_func_inr L args kwargs w w' rv :
  randomized_search_func L args kwargs w = (w', inr rv) →
  ∃ acc,
    for_each (zip (sa_models args) (sa_grids args)) ([], ∅)
      (search_step L (sa_X args) (sa_y args) (sa_preprocessors args) (sa_n_iter args)
         (sa_save_artifact_folder args)) w = (w', inr acc)
    ∧ rv = OTuple [OFrame acc.1; OScores acc.2].
Proof.
  unfold randomized_search_func. intros H.
  destruct (negb _); [discriminate|]. destruct (_ <? _)%nat; [discriminate|].
  destruct (_ || _); [discriminate|].
  unfold randomized_search_body in H.
  apply bind_inr in H as (w2 & acc & Hloop & H).
  apply bind_inr in H as (w3 & df & [-> ->]%ret_inr & H).
  apply ret_inr in H as [-> ->]. eauto.
Qed.

(** X10.  The mean test scores that [randomized_search] hands to its
    decorator are kept under the class name of the model, so models of one
    class share one entry: the dict has one key per class among the models
    searched, never more keys than the ranking has rows, while the ranking
    has one row per model searched. *)
Theorem randomized_search_scores_by_class L args kwargs w w' rv :
  randomized_search_func L args kwargs w = (w', inr rv) →
  ∃ df d classes,
    rv = OTuple [OFrame df; OScores d]
    ∧ Forall2 (λ (entry : loc * gmap string (list value)) class,
                 ∃ o, heap w !! entry.1 = Some o ∧ class = class_name o)
              (zip (sa_models args) (sa_grids args)) classes
    ∧ length df = length classes
    ∧ dom d = list_to_set classes
    ∧ (size d ≤ length df)%nat.
Proof.
  intros (acc & Hloop & ->)%randomized_search_func_inr.
  apply search_loop_scores in Hloop
    as (rows & classes & dumps & Hr & Hn & F & Hd & _). simpl in *. subst rows.
  exists acc.1, acc.2, classes.
  assert (Hlen : length acc.1 = length classes).
  { transitivity (length (zip (sa_models args) (sa_grids args)));
      [exact Hn | exact (Forall2_length _ _ _ F)]. }
  assert (Hdom : dom acc.2 = list_to_set classes) by (rewrite Hd; set_solver).
  split_and!; [done..|].
  rewrite <- size_dom, Hdom, Hlen. apply size_list_to_set_le.
Qed.

Lemma randomized_search_scores_by_class_witness :
  ∃ df d classes,
    Sample.returned (randomized_search_func Sample.lib Cases.twin_search ∅ Cases.twins) ONone
      = OTuple [OFrame df; OScores d]
    ∧ Forall2 (λ (entry : loc * gmap string (list value)) class,
                 ∃ o, heap Cases.twins !! entry.1 = Some o ∧ class = class_name o)
              (zip (sa_models Cases.twin_search) (sa_grids Cases.twin_search)) classes
    ∧ length df = length classes
    ∧ dom d = list_to_set classes
    ∧ (size d ≤ length df)%nat.
Proof.
  apply (randomized_search_scores_by_class Sample.lib Cases.twin_search ∅ Cases.twins
           (randomized_search_func Sample.lib Cases.twin_search ∅ Cases.twins).1).
  vm_compute. reflexivity.
Defined.

(** X11.  [zip(models, grids)] stops at the shorter list, silently.  When
    [randomized_search] returns, the ranking has min(len(models), len(grids))
    rows and as many model artifacts have been dumped: the models, or the
    grids, beyond that are ignored. *)
Theorem randomized_search_stops_at_shorter L args kwargs w w' r :
  randomized_search L args kwargs w = (w', inr r) →
  ∃ df,
    r = OFrame df
    ∧ length df = (length (sa_models args) `min` length (sa_grids args))%nat
    ∧ length (filter (λ e, is_artifact_dump e = true) (events_since w w'))
      = (length (sa_models args) `min` length (sa_grids args))%nat.
Proof.
  intros H. unfold randomized_search in H.
  destruct (randomized_search_func L args kwargs w) as [w1 [e|rv]] eqn:Hf.
  { unfold save_result_data in H. rewrite bind_run, Hf in H. discriminate. }
  destruct (save_result_data_after_call L _ args kwargs w w1 rv Hf) as (_ & Hlog & Hret & _).
  rewrite H in Hret, Hlog. specialize (Hret r eq_refl). subst r. simpl in Hlog.
  apply randomized_search_func_inr in Hf as (acc & Hloop & ->).
  apply search_loop_scores in Hloop
    as (rows & classes & dumps & Hr & Hn & _ & _ & _ & Hl & Hn' & Fd).
  simpl in *. subst rows. rewrite length_zip in Hn, Hn'.
  exists acc.1. split_and!; [done | done |].
  unfold events_since. rewrite Hlog, Hl, <- !app_assoc, drop_app_length.
  rewrite !filter_app, !length_app.
  assert (Hd : filter (λ e, is_artifact_dump e = true) dumps = dumps).
  { clear -Fd. induction Fd as [|e dumps He Fd IH]; [done|].
    rewrite filter_cons_True by done. by rewrite IH. }
  assert (Hc : filter (λ e, is_artifact_dump e = true)
                 (csv_step_events L (kwargs_get kwargs "save_results_path") (OFrame acc.1))
               = []).
  { unfold csv_step_events. destruct (truthy _); [|done].
    by destruct (to_csv L _ _). }
  assert (Hs : filter (λ e, is_artifact_dump e = true)
                 (if csv_step_ok L (kwargs_get kwargs "save_results_path") (OFrame acc.1)
                  then dump_step_events L
                         (kwargs_get kwargs "save_additional_results_path")
                         (OScores acc.2)
                  else []) = []).
  { destruct (csv_step_ok L _ _); [|done]. unfold dump_step_events.
    destruct (truth_value _) as [|[|]]; try done.
    destruct (truthy _); [|done]. by destruct (joblib_dump L _ _). }
  rewrite Hd, Hc, Hs. simpl. lia.
Qed.

Lemma randomized_search_stops_at_shorter_witness :
  ∃ df,
    Sample.returned (randomized_search Sample.lib Cases.short_search ∅ Sample.w0) ONone
      = OFrame df
    ∧ length df = (length (sa_models Cases.short_search)
                   `min` length (sa_grids Cases.short_search))%nat
    ∧ length (filter (λ e, is_artifact_dump e = true)
                (events_since Sample.w0
                   (randomized_search Sample.lib Cases.short_search ∅ Sample.w0).1))
      = (length (sa_models Cases.short_search)
         `min` length (sa_grids Cases.short_search))%nat.
Proof.
  apply (randomized_search_stops_at_shorter Sample.lib Cases.short_search ∅ Sample.w0).
  vm_compute. reflexivity.
Defined.

Lemma search_step_short L X y (preprocessors : list transformer) n_iter folder acc entry w :
  (length preprocessors < 2)%nat →
  search_step L X y preprocessors n_iter folder acc entry w = (w, inl IndexError).
Proof.
  intros Hp. unfold search_step. rewrite bind_run. unfold subscript at 1.
  destruct preprocessors as [|p0 [|p1 ps]]; simpl in *; [done | | lia].
  by rewrite bind_run.
Qed.

(** X12.  [randomized_search] indexes [preprocessors[0]] and
    [preprocessors[1]].  With fewer than two preprocessors, and at least one
    model with its grid, the call raises, an IndexError unless its arguments
    do not even bind, before any search is run: nothing is dumped, nothing
    is written, and no warning is emitted. *)
Theorem randomized_search_needs_two_preprocessors L args kwargs w :
  (length (sa_preprocessors args) < 2)%nat →
  sa_models args ≠ [] →
  sa_grids args ≠ [] →
  randomized_search L args kwargs w = (w, inl IndexError)
  ∨ ∃ msg, randomized_search L args kwargs w = (w, inl (TypeError msg)).
Proof.
  intros Hp Hm Hg. unfold randomized_search.
  assert (Hf : randomized_search_func L args kwargs w = (w, inl IndexError)
               ∨ ∃ msg, randomized_search_func L args kwargs w = (w, inl (TypeError msg))).
  { unfold randomized_search_func.
    destruct (negb _); [right; by eexists|].
    destruct (_ <? _)%nat; [right; by eexists|].
    destruct (_ || _); [right; by eexists|].
    left. unfold randomized_search_body.
    destruct (sa_models args) as [|m ms]; [done|].
    destruct (sa_grids args) as [|g gs]; [done|].
    rewrite bind_run. simpl zip. simpl for_each.
    by rewrite bind_run, search_step_short. }
  destruct Hf as [Hf | [msg Hf]].
  - left. by apply wrapper_passes_on.
  - right. exists msg. by apply wrapper_passes_on.
Qed.

Lemma randomized_search_needs_two_preprocessors_witness :
  randomized_search Sample.lib Cases.one_preprocessor ∅ Sample.w0
    = (Sample.w0, inl IndexError)
  ∨ ∃ msg, randomized_search Sample.lib Cases.one_preprocessor ∅ Sample.w0
           = (Sample.w0, inl (TypeError msg)).
Proof.
  apply (randomized_search_needs_two_preprocessors Sample.lib Cases.one_preprocessor ∅
           Sample.w0).
  - simpl. lia.
  - discriminate.
  - discriminate.
Defined.

(** ** load_results_from_folder *)

Lemma load_loop_inr L folder_path columns_to_select names : ∀ (results : list frame) w w' out,
  for_each names results
    (λ results file_name,
       if endswith file_name ".csv" then
         let file_path := os_path_join folder_path file_name in
         df <- lift (read_csv L file_path) ;;
         result_df <- lift (select_columns L df columns_to_select) ;;
         ret (results ++ [result_df])
       else ret results) w
  = (w', inr out) →
  w' = w
  ∧ ∃ frames,
      out = results ++ frames
      ∧ Forall2 (λ fr name, loaded L folder_path columns_to_select name fr)
                frames (filter (λ n, endswith n ".csv" = true) names).
Proof.
  induction names as [|n names IH]; intros results w w' out; simpl.
  - intros [-> ->]%ret_inr. split; [done|]. exists []. by rewrite app_nil_r.
  - intros (w1 & acc & H1 & H)%bind_inr. rewrite filter_cons.
    destruct (endswith n ".csv") eqn:Hn.
    + apply bind_inr in H1 as (w2 & df & [-> Hread]%lift_inr & H1).
      apply bind_inr in H1 as (w2 & fr & [-> Hsel]%lift_inr & H1).
      apply ret_inr in H1 as [-> ->].
      apply IH in H as (-> & frames & -> & F). split; [done|].
      exists (fr :: frames). rewrite decide_True by done.
      split; [by rewrite <- app_assoc|]. constructor; [by exists df | done].
    + apply ret_inr in H1 as [-> ->].
      apply IH in H as (-> & frames & -> & F). split; [done|].
      exists frames. rewrite decide_False by done. done.
Qed.

(** X13.  [load_results_from_folder] reads the files whose name ends in
    .csv and no other.  When it returns, there was at least one such file,
    and the DataFrame returned is the concatenation, in the order of the
    listing, of those files read as CSV and cut down to the columns
    asked for. *)
Theorem load_results_from_folder_concatenates L folder_path columns_to_select names w w' df :
  os_listdir L folder_path = inr names →
  load_results_from_folder L folder_path columns_to_select w = (w', inr df) →
  w' = w
  ∧ ∃ frames,
      frames ≠ []
      ∧ Forall2 (λ fr name, loaded L folder_path columns_to_select name fr)
                frames (filter (λ n, endswith n ".csv" = true) names)
      ∧ df = concat frames.
Proof.
  intros Hls H. unfold load_results_from_folder in H.
  rewrite bind_run, Hls in H. simpl in H.
  apply bind_inr in H as (w1 & results & Hloop & H).
  apply load_loop_inr in Hloop as (-> & frames & -> & F). simpl in H.
  destruct frames as [|a [|b frames]]; simpl in H.
  - discriminate.
  - apply ret_inr in H as [-> ->]. split; [done|]. exists [a].
    split_and!; [done | done | simpl; by rewrite app_nil_r].
  - apply ret_inr in H as [-> ->]. split; [done|]. exists (a :: b :: frames).
    split_and!; done.
Qed.

Lemma load_results_from_folder_concatenates_witness :
  ∃ frames,
    frames ≠ []
    ∧ Forall2 (λ fr name, loaded Cases.folder_lib "results" ["Model"] name fr)
              frames (filter (λ n, endswith n ".csv" = true) ["a.csv"; "notes.txt"; "b.csv"])
    ∧ Sample.returned
        (load_results_from_folder Cases.folder_lib "results" ["Model"] Sample.w0) []
      = concat frames.
Proof.
  apply (load_results_from_folder_concatenates Cases.folder_lib "results" ["Model"]
           ["a.csv"; "notes.txt"; "b.csv"] Sample.w0
           (load_results_from_folder Cases.folder_lib "results" ["Model"] Sample.w0).1).
  - reflexivity.
  - vm_compute. reflexivity.
Defined.

(** ** process_fold *)

Lemma mapM_lookup_out_of_range {A} (xs : list A) (idx : list nat) :
  Exists (λ i, (length xs ≤ i)%nat) idx → mapM (λ i, xs !! i) idx = None.
Proof.
  intros Hex. destruct (mapM (λ i, xs !! i) idx) as [sel|] eqn:Hm; [|done].
  exfalso. assert (Hs : is_Some (mapM (λ i, xs !! i) idx)) by (by rewrite Hm).
  apply mapM_is_Some in Hs. apply Exists_exists in Hex as (i & Hin & Hi).
  rewrite Forall_forall in Hs. destruct (Hs i Hin) as [x Hx]. simpl in Hx.
  apply lookup_lt_Some in Hx. lia.
Qed.

(** X14.  When an index of [train_idx] or of [test_idx] is out of range for
    the rows of [X] or for [y], [process_fold] raises the IndexError of
    [iloc] before it copies or fits anything: the world is as it was. *)
Theorem process_fold_out_of_range L train_idx test_idx X y estimator w :
  out_of_range X y (train_idx ++ test_idx) →
  process_fold L train_idx test_idx X y estimator w
  = (w, inl (Propagated (LibExn "IndexError" "positional indexers are out-of-bounds"))).
Proof.
  intros Hex. unfold process_fold, iloc.
  rewrite bind_run.
  destruct (mapM (λ i, rows X !! i) train_idx) as [X_train|] eqn:H1; [|done]. simpl.
  rewrite bind_run.
  destruct (mapM (λ i, rows X !! i) test_idx) as [X_test|] eqn:H2; [|done]. simpl.
  rewrite bind_run.
  destruct (mapM (λ i, y !! i) train_idx) as [y_train|] eqn:H3; [|done]. simpl.
  rewrite bind_run.
  destruct (mapM (λ i, y !! i) test_idx) as [y_test|] eqn:H4; [|done]. simpl.
  exfalso. unfold out_of_range in Hex.
  apply Exists_app in Hex as [Hex|Hex];
    apply Exists_exists in Hex as (i & Hin & [Hi|Hi]).
  - rewrite mapM_lookup_out_of_range in H1; [done|]. apply Exists_exists. eauto.
  - rewrite mapM_lookup_out_of_range in H3; [done|]. apply Exists_exists. eauto.
  - rewrite mapM_lookup_out_of_range in H2; [done|]. apply Exists_exists. eauto.
  - rewrite mapM_lookup_out_of_range in H4; [done|]. apply Exists_exists. eauto.
Qed.

Lemma process_fold_out_of_range_witness :
  process_fold Sample.lib [0%nat] [2%nat] Sample.X Sample.y 0%nat Sample.w0
  = (Sample.w0,
     inl (Propagated (LibExn "IndexError" "positional indexers are out-of-bounds"))).
Proof.
  apply (process_fold_out_of_range Sample.lib [0%nat] [2%nat] Sample.X Sample.y 0%nat
           Sample.w0).
  apply Exists_cons_tl, Exists_cons_hd. left. simpl. lia.
Defined.

(** ** thresholds_results_plot and evaluate_discrimination_thresholds *)

Lemma pbind_run {A B} (m : P A) (k : A → P B) (w : world) :
  pbind m k w = match m w with
                | (w1, inl e) => (w1, inl e)
                | (w1, inr a) => k a w1
                end.
Proof. reflexivity. Qed.

Lemma run_inr {A} (m : M A) w w' (a : A) : run m w = (w', inr a) → m w = (w', inr a).
Proof. unfold run. destruct (m w) as [w1 [e|x]]; intros [= -> ->]; done. Qed.

Lemma plot_estimator_unpack S thresholds optimal_thresholds i name scores w :
  length scores ≠ 3%nat →
  plot_estimator S thresholds optimal_thresholds (i, (name, scores)) w
  = (w, inl (UnpackError 3 (length scores))).
Proof.
  intros Hlen. unfold plot_estimator. simpl.
  destruct scores as [|a [|b [|c [|d rest]]]]; simpl in *; done.
Qed.

Lemma plot_estimator_axis S thresholds optimal_thresholds i item w w' u :
  plot_estimator S thresholds optimal_thresholds (i, item) w = (w', inr u) →
  (i < 4)%nat ∧ length item.2 = 3%nat.
Proof.
  unfold plot_estimator. simpl.
  destruct item.2 as [|a [|b [|c [|d rest]]]]; try discriminate.
  intros H%run_inr.
  apply bind_inr in H as (w1 & idx & _ & H).
  apply bind_inr in H as (w2 & max_f1 & _ & H).
  apply bind_inr in H as (w3 & ax & Hax & _).
  unfold numpy_subscript in Hax.
  destruct (flattened_axes !! i) eqn:Hi; [|discriminate].
  apply lookup_lt_Some in Hi. done.
Qed.

Lemma plot_loop_unpack S thresholds optimal_thresholds
    (results : list (string * list (list float))) : ∀ i w,
  Exists (λ e, length e.2 ≠ 3%nat) results →
  ∃ e, (pfor_each (enumerate i results)
          (plot_estimator S thresholds optimal_thresholds) w).2 = inl e.
Proof.
  induction results as [|x results IH]; intros i w Hex.
  - by apply Exists_nil in Hex.
  - simpl. rewrite pbind_run.
    destruct (plot_estimator S thresholds optimal_thresholds (i, x) w)
      as [w1 [e|u]] eqn:Hx; [by exists e|].
    apply plot_estimator_axis in Hx as [_ H3].
    apply Exists_cons in Hex as [Hbad|Hex]; [done|]. by apply IH.
Qed.

Lemma plot_loop_axes S thresholds optimal_thresholds
    (results : list (string * list (list float))) : ∀ i w,
  (i ≤ 4)%nat → (4 < i + length results)%nat →
  ∃ e, (pfor_each (enumerate i results)
          (plot_estimator S thresholds optimal_thresholds) w).2 = inl e.
Proof.
  induction results as [|x results IH]; intros i w Hi Hn; simpl in *.
  - lia.
  - rewrite pbind_run.
    destruct (plot_estimator S thresholds optimal_thresholds (i, x) w)
      as [w1 [e|u]] eqn:Hx; [by exists e|].
    apply plot_estimator_axis in Hx as [Hlt _].
    apply IH; lia.
Qed.

Lemma plot_never_returns S results thresholds optimal_thresholds w :
  Exists (λ e, length e.2 ≠ 3%nat) results ∨ (4 < length results)%nat →
  ∃ e, (thresholds_results_plot S results thresholds optimal_thresholds w).2 = inl e.
Proof.
  intros Hbad. unfold thresholds_results_plot. rewrite pbind_run.
  unfold run at 1, plt at 1.
  destruct (matplotlib S (Subplots 2 2 12 8)); simpl; [by eexists|].
  rewrite pbind_run.
  destruct Hbad as [Hbad|Hbad].
  - destruct (plot_loop_unpack S thresholds optimal_thresholds results 0%nat w Hbad)
      as [e He].
    destruct (pfor_each _ _ w) as [w1 [e1|u]]; simpl in *; [by exists e1 | done].
  - destruct (plot_loop_axes S thresholds optimal_thresholds results 0%nat w) as [e He];
      [lia | lia |].
    destruct (pfor_each _ _ w) as [w1 [e1|u]]; simpl in *; [by exists e1 | done].
Qed.

(** X15.  [thresholds_results_plot] unpacks the scores of each estimator
    into three lists and draws on one of four axes.  Given results in which
    some estimator has other than three lists of scores, or results for
    more than four estimators, it never returns: it raises. *)
Theorem thresholds_results_plot_never_returns S results thresholds optimal_thresholds w :
  Exists (λ e, length e.2 ≠ 3%nat) results ∨ (4 < length results)%nat →
  ∃ e, (thresholds_results_plot S results thresholds optimal_thresholds w).2 = inl e.
Proof. apply plot_never_returns. Qed.

Lemma thresholds_results_plot_never_returns_witness :
  ∃ e, (thresholds_results_plot Cases.scorer
          (replicate 5 ("model", [[F64 1]; [F64 2]; [F64 3]]))
          [F64 0] (replicate 5 (F64 0)) Sample.w0).2 = inl e.
Proof.
  apply (thresholds_results_plot_never_returns Cases.scorer
           (replicate 5 ("model", [[F64 1]; [F64 2]; [F64 3]]))).
  right. simpl. lia.
Defined.

Lemma dict_set_nonempty {V} (d : list (string * V)) key v : dict_set d key v ≠ [].
Proof. destruct d as [|[k old] rest]; simpl; [done|]. by destruct (String.eqb k key). Qed.

Lemma dict_set_Forall {V} (Q : string * V → Prop) (d : list (string * V)) key v :
  Forall Q d → (∀ k, Q (k, v)) → Forall Q (dict_set d key v).
Proof.
  intros F Hv. induction F as [|[k old] rest Hk F IH]; simpl.
  - constructor; [apply Hv | constructor].
  - destruct (String.eqb k key); constructor; auto.
Qed.

Lemma evaluate_estimator_inr L S X y thresholds acc entry w w' acc' :
  evaluate_estimator L S X y thresholds acc entry w = (w', inr acc') →
  ∃ lists : list (list float),
    length lists = 4%nat ∧ acc'.1 = dict_set acc.1 entry.1 lists.
Proof.
  unfold evaluate_estimator. intros H.
  apply bind_inr in H as (w1 & folds & _ & H).
  apply bind_inr in H as (w2 & per_fold & _ & H).
  apply bind_inr in H as (w3 & scores & _ & H).
  apply bind_inr in H as (w4 & best & _ & H).
  apply bind_inr in H as (w5 & optimal & _ & H).
  apply ret_inr in H as [-> ->]. simpl.
  by exists [f1s scores; precisions scores; recalls scores; g_means scores].
Qed.

Lemma evaluate_loop_inr L S X y thresholds estimators : ∀ acc w w' acc',
  for_each estimators acc (evaluate_estimator L S X y thresholds) w = (w', inr acc') →
  (Forall (λ e, length e.2 = 4%nat) acc.1 → Forall (λ e, length e.2 = 4%nat) acc'.1)
  ∧ (estimators ≠ [] ∨ acc.1 ≠ [] → acc'.1 ≠ []).
Proof.
  induction estimators as [|entry estimators IH]; intros acc w w' acc'; simpl.
  - intros [-> ->]%ret_inr. split; [done|]. by intros [?|?].
  - intros (w1 & acc1 & H1 & H)%bind_inr.
    apply evaluate_estimator_inr in H1 as (lists & Hlen & Hacc).
    apply IH in H as [HF Hne]. split.
    + intros F. apply HF. rewrite Hacc. by apply dict_set_Forall.
    + intros _. apply Hne. right. rewrite Hacc. apply dict_set_nonempty.
Qed.

(** X16.  [evaluate_discrimination_thresholds] keeps four lists of scores
    per estimator and hands them to [thresholds_results_plot], which unpacks
    three.  So with at least one estimator the call never returns: it
    raises.  When the folds, the metrics and the creation of the figure all
    succeed, what it raises is the failure to unpack four values into three
    names, and the results computed are lost. *)
Theorem evaluate_discrimination_thresholds_never_returns L S estimators X y thresholds w :
  estimators ≠ [] →
  (∃ e, (evaluate_discrimination_thresholds L S estimators X y thresholds w).2 = inl e)
  ∧ ∀ w1 acc,
      for_each estimators ([], []) (evaluate_estimator L S X y thresholds) w
        = (w1, inr acc) →
      matplotlib S (Subplots 2 2 12 8) = None →
      evaluate_discrimination_thresholds L S estimators X y thresholds w
      = (w1, inl (UnpackError 3 4)).
Proof.
  intros Hne. unfold evaluate_discrimination_thresholds. split.
  - rewrite pbind_run. unfold run at 1.
    destruct (for_each estimators _ _ w) as [w1 [e|acc]] eqn:Hloop; [by eexists|].
    apply evaluate_loop_inr in Hloop as [HF Hacc]. simpl in *.
    specialize (HF (Forall_nil_2 _)). specialize (Hacc (or_introl Hne)).
    rewrite pbind_run.
    destruct (plot_never_returns S acc.1 thresholds acc.2 w1) as [e He].
    { left. destruct acc.1 as [|first rest]; [done|].
      apply Exists_cons_hd. apply Forall_cons in HF as [H4 _]. rewrite H4. lia. }
    destruct (thresholds_results_plot S acc.1 thresholds acc.2 w1) as [w2 [e2|u]];
      simpl in *; [by eexists | done].
  - intros w1 acc Hloop Hfig.
    rewrite pbind_run. unfold run at 1. rewrite Hloop.
    apply evaluate_loop_inr in Hloop as [HF Hacc]. simpl in *.
    specialize (HF (Forall_nil_2 _)). specialize (Hacc (or_introl Hne)).
    rewrite pbind_run. unfold thresholds_results_plot. rewrite pbind_run.
    unfold run at 1, plt at 1. rewrite Hfig. simpl.
    destruct acc.1 as [|[name scores] rest]; [done|].
    apply Forall_cons in HF as [H4 _]. simpl in *.
    rewrite !pbind_run, plot_estimator_unpack by lia. by rewrite H4.
Qed.

Lemma evaluate_discrimination_thresholds_never_returns_witness :
  evaluate_discrimination_thresholds Sample.lib Cases.scorer [("forest", 0%nat)]
    Sample.X Sample.y [F64 1; F64 2] Sample.w0
  = ((for_each [("forest", 0%nat)] ([], [])
        (evaluate_estimator Sample.lib Cases.scorer Sample.X Sample.y [F64 1; F64 2])
        Sample.w0).1,
     inl (UnpackError 3 4)).
Proof.
  destruct (evaluate_discrimination_thresholds_never_returns Sample.lib Cases.scorer
              [("forest", 0%nat)] Sample.X Sample.y [F64 1; F64 2] Sample.w0)
    as [_ Hlost]; [discriminate|].
  apply (Hlost _ (Sample.returned
                    (for_each [("forest", 0%nat)] ([], [])
                       (evaluate_estimator Sample.lib Cases.scorer Sample.X Sample.y
                          [F64 1; F64 2]) Sample.w0) ([], []))).
  - vm_compute. reflexivity.
  - reflexivity.
Defined.
